(** * Collaboration networks (silver layer): a shallow embedding

    The development follows [src/silver/collaboration_networks.py]:
    the function [process_collaboration_networks] reads four lists of
    JSON records, collects the contributors of every repository, links
    every two contributors of a repository, and derives edge, user,
    repository, hub and summary metrics.

    Python values are modelled as follows.
    - JSON values: the inductive [json]; numbers are integers here.
    - Exceptions: the [outcome] monad.
    - [dict] / [defaultdict]: association lists in insertion order, with
      pairwise different keys.
    - [set]: the list of its elements in iteration order.  Python leaves
      that order unspecified, so insertion is a parameter ([PySet]).
    - [int]: [Z]; the quotient of [/]: a reduced fraction in [Q].
    - [list.sort(key=..., reverse=True)]: a stable sort by decreasing key. *)

From Stdlib Require Import String Ascii Bool ZArith QArith Lia.
From Stdlib Require Import List Permutation Sorted.
Import ListNotations.

Local Open Scope string_scope.
Local Open Scope list_scope.
Local Open Scope Z_scope.

Set Implicit Arguments.
Set Warnings "-register-all".

(** ** Exceptions *)

Inductive exn : Set :=
| AttributeError
| KeyError
| TypeError
| ZeroDivisionError.

(** [Unmodelled] marks a run that Python continues with a repository name
    or a login that is a number or a boolean: the graph stage below is
    typed over strings, so such a run is not followed further. *)
Inductive outcome (A : Type) : Type :=
| Ok (a : A)
| Raise (e : exn)
| Unmodelled.

Arguments Ok {A} a.
Arguments Raise {A} e.
Arguments Unmodelled {A}.

Definition bind {A B : Type} (m : outcome A) (k : A -> outcome B) : outcome B :=
  match m with
  | Ok a => k a
  | Raise e => Raise e
  | Unmodelled => Unmodelled
  end.

Notation "x <- m ;; k" := (bind m (fun x => k))
  (at level 61, m at next level, right associativity).

(** A [for] loop whose body may raise. *)
Fixpoint for_each {S A : Type} (body : S -> A -> outcome S) (l : list A) (s : S)
  : outcome S :=
  match l with
  | [] => Ok s
  | a :: l' => s' <- body s a ;; for_each body l' s'
  end.

(** ** JSON values *)

Inductive json : Type :=
| JNull
| JBool (b : bool)
| JNum (z : Z)
| JStr (s : string)
| JList (l : list json)
| JDict (d : list (string * json)).

Definition jdict : Type := list (string * json).

Fixpoint lookup (k : string) (d : jdict) : option json :=
  match d with
  | [] => None
  | (k', v) :: d' => if String.eqb k k' then Some v else lookup k d'
  end.

(** Truth value of a JSON value in a condition. *)
Definition truthy (v : json) : bool :=
  match v with
  | JNull => false
  | JBool b => b
  | JNum z => negb (z =? 0)
  | JStr s => negb (String.eqb s "")
  | JList l => match l with [] => false | _ => true end
  | JDict d => match d with [] => false | _ => true end
  end.

(** [o.get(k, default)]: only a dict has a [get] attribute. *)
Definition py_get (o : json) (k : string) (default : json) : outcome json :=
  match o with
  | JDict d => Ok (match lookup k d with Some v => v | None => default end)
  | _ => Raise AttributeError
  end.

(** [o[k]] with a string [k]. *)
Definition py_item (o : json) (k : string) : outcome json :=
  match o with
  | JDict d => match lookup k d with Some v => Ok v | None => Raise KeyError end
  | _ => Raise TypeError
  end.

(** [k in o] with a string [k]: key of a dict, element of a list,
    substring of a string. *)
Definition py_contains (k : string) (o : json) : outcome bool :=
  match o with
  | JDict d => Ok (match lookup k d with Some _ => true | None => false end)
  | JList l =>
      Ok (existsb (fun v => match v with JStr s => String.eqb k s | _ => false end) l)
  | JStr s => Ok (match String.index 0 k s with Some _ => true | None => false end)
  | _ => Raise TypeError
  end.

(** ** Equality tests on keys *)

Class EqDec (K : Type) := eq_dec : forall a b : K, {a = b} + {a <> b}.

#[export] Instance string_EqDec : EqDec string := string_dec.

#[export] Instance option_EqDec {K} `{EqDec K} : EqDec (option K).
Proof. intros a b. unfold EqDec in *. decide equality. Defined.

#[export] Instance pair_EqDec {K L} `{EqDec K} `{EqDec L} : EqDec (K * L).
Proof. intros a b. unfold EqDec in *. decide equality. Defined.

Definition mem {K} `{EqDec K} (x : K) (l : list K) : bool :=
  if in_dec eq_dec x l then true else false.

(** ** Dictionaries in insertion order *)

Section Dict.
Context {K V : Type} `{EqDec K}.

Definition dict : Type := list (K * V).

Definition keys (d : dict) : list K := map fst d.
Definition values (d : dict) : list V := map snd d.

Fixpoint dict_get (k : K) (d : dict) : option V :=
  match d with
  | [] => None
  | (k', v) :: d' => if eq_dec k k' then Some v else dict_get k d'
  end.

(** [d[k]] of a [defaultdict]: the stored value, or the default. *)
Definition dd_get (default : V) (k : K) (d : dict) : V :=
  match dict_get k d with Some v => v | None => default end.

(** [d[k].m(...)] on a [defaultdict]: the value under [k] is changed in
    place; a missing key is first entered, last, with the default. *)
Fixpoint dd_update (default : V) (f : V -> V) (k : K) (d : dict) : dict :=
  match d with
  | [] => [(k, f default)]
  | (k', v) :: d' =>
      if eq_dec k k' then (k', f v) :: d'
      else (k', v) :: dd_update default f k d'
  end.

(** [d[k] = v] on a plain dict. *)
Fixpoint dict_set (k : K) (v : V) (d : dict) : dict :=
  match d with
  | [] => [(k, v)]
  | (k', v') :: d' =>
      if eq_dec k k' then (k', v) :: d' else (k', v') :: dict_set k v d'
  end.
End Dict.

Arguments dict K V : clear implicits.

(** ** Sets *)

(** A set is the list of its elements in iteration order.  [set_add] is
    [s.add(x)]: nothing changes when [x] is there already, otherwise [x]
    joins the elements, at a place Python does not specify. *)
Class PySet := {
  set_add : string -> list string -> list string;
  set_add_old : forall x s, In x s -> set_add x s = s;
  set_add_new : forall x s, ~ In x s -> Permutation (set_add x s) (x :: s)
}.

Definition pyset : Type := list string.

(** One implementation: iteration in insertion order. *)
Definition add_last (x : string) (s : pyset) : pyset :=
  if mem x s then s else s ++ [x].

Lemma add_last_old x s : In x s -> add_last x s = s.
Proof.
  unfold add_last, mem. destruct (in_dec eq_dec x s); tauto.
Qed.

Lemma add_last_new x s : ~ In x s -> Permutation (add_last x s) (x :: s).
Proof.
  unfold add_last, mem. destruct (in_dec eq_dec x s); [tauto|].
  intros _. symmetry. apply Permutation_cons_append.
Qed.

Definition insertion_order : PySet :=
  {| set_add := add_last; set_add_old := add_last_old; set_add_new := add_last_new |}.

(** ** Python arithmetic and sorting *)

Definition len {A : Type} (l : list A) : Z := Z.of_nat (length l).

Definition sum (l : list Z) : Z := fold_left Z.add l 0.

(** [a / b] on integers.  Python gives the float nearest to the quotient;
    the model keeps the quotient itself, as a reduced fraction.  The two
    are the same number where the quotient is an integer (the densities 0
    and 1); elsewhere [Ok q] stands for the float nearest to [q]. *)
Definition py_truediv (a b : Z) : outcome Q :=
  if b =? 0 then Raise ZeroDivisionError
  else Ok (Qred (inject_Z a / inject_Z b)).

(** [l.sort(key=key, reverse=True)]: decreasing keys, and entries with the
    same key stay in the order they had.  A stable sort has one result, so
    insertion sort stands for Python's. *)
Fixpoint insert_desc {A : Type} (key : A -> Z) (x : A) (l : list A) : list A :=
  match l with
  | [] => [x]
  | y :: l' => if key x <? key y then y :: insert_desc key x l' else x :: l
  end.

Definition sort_desc {A : Type} (key : A -> Z) (l : list A) : list A :=
  fold_right (insert_desc key) [] l.

(** A loop that appends one entry per item, and may raise. *)
Fixpoint traverse {A B : Type} (f : A -> outcome B) (l : list A) : outcome (list B) :=
  match l with
  | [] => Ok []
  | a :: l' => b <- f a ;; bs <- traverse f l' ;; Ok (b :: bs)
  end.

(** ** The records written out *)

(** A repository key: [None] is Python's [None] (a null [repo_name]). *)
Definition repo_id : Type := option string.

Module Edge.
Record t : Type := {
  source : string;
  target : string;
  weight : Z;
  repos : list repo_id;
  collaboration_type : string
}.
End Edge.

Module UserMetric.
Record t : Type := {
  user : string;
  collaborator_count : Z;
  collaborators : list string;
  repositories_contributed : Z
}.
End UserMetric.

Module RepoAnalysis.
Record t : Type := {
  repo : repo_id;
  contributor_count : Z;
  contributors : list string;
  potential_collaborations : Z;
  actual_collaborations : Z;
  collaboration_density : Q
}.
End RepoAnalysis.

Module Hub.
Record t : Type := {
  user : string;
  repositories : list repo_id;
  repo_count : Z;
  total_collaborators : Z
}.
End Hub.

Module NetworkStats.
Record t : Type := {
  total_users : Z;
  total_collaborations : Z;
  total_repositories : Z;
  cross_repo_contributors : Z;
  avg_collaborators_per_user : Q;
  avg_contributors_per_repo : Q
}.
End NetworkStats.

(** What one run saves: the four lists and the statistics.  The hub file is
    written only when there is a hub. *)
Record output : Type := {
  collaboration_edges : list Edge.t;
  user_metrics : list UserMetric.t;
  repo_analysis : list RepoAnalysis.t;
  cross_repo_list : option (list Hub.t);
  network_stats : NetworkStats.t
}.

Definition hub_list (out : output) : list Hub.t :=
  match cross_repo_list out with Some l => l | None => [] end.

(** ** The contributor index and the graph *)

(** [repo_collaborators]: repository -> set of logins. *)
Definition index : Type := dict repo_id pyset.

Definition edge_key : Type := (string * string)%type.

(** [tuple(sorted([user1, user2]))] *)
Definition canonical (user1 user2 : string) : edge_key :=
  if String.ltb user2 user1 then (user2, user1) else (user1, user2).

Record graph : Type := {
  collaboration_repos : dict edge_key (list repo_id);
  user_collaborations : dict string pyset
}.

Definition empty_graph : graph :=
  {| collaboration_repos := []; user_collaborations := [] |}.

(** A key of [repo_collaborators] or a member of a set must be hashable:
    a list or an object raises.  A number or a boolean is hashable too, and
    Python goes on with it as a repository or a login; the model, whose
    repositories and logins are strings, does not follow such a run and
    ends it as [Unmodelled]. *)
Definition bucket_key (repo : json) : outcome repo_id :=
  match repo with
  | JNull => Ok None
  | JStr r => Ok (Some r)
  | JList _ | JDict _ => Raise TypeError
  | JBool _ | JNum _ => Unmodelled
  end.

Definition member_key (login : json) : outcome string :=
  match login with
  | JStr l => Ok l
  | JList _ | JDict _ => Raise TypeError
  | JNull | JBool _ | JNum _ => Unmodelled
  end.

(** [x and y] *)
Definition py_and (x : json) (y : outcome json) : outcome json :=
  if truthy x then y else Ok x.

Section Engine.
Context {PS : PySet}.

(** *** Lines 20-23: the metadata loop

    The slice [data_list[1:]] is bound to the loop variable; the four
    lists read below are the ones loaded. *)
Definition skip_metadata (data_lists : list (list json)) : outcome unit :=
  for_each
    (fun (_ : unit) (data_list : list json) =>
       c <- match data_list with
            | [] => Ok false
            | first :: _ => py_contains "_metadata" first
            end ;;
       let data_list := if c : bool then tl data_list else data_list in
       Ok tt)
    data_lists tt.

(** *** Lines 29-49: contributors per repository *)

(** [repo_collaborators[repo].add(record[field]['login'])] *)
Definition add_login (rc : index) (repo record : json) (field : string)
  : outcome index :=
  k <- bucket_key repo ;;
  actor <- py_item record field ;;
  login <- py_item actor "login" ;;
  m <- member_key login ;;
  Ok (dd_update [] (set_add m) k rc).

(** [record.get(field, {}).get('login')] *)
Definition get_get_login (record : json) (field : string) : outcome json :=
  actor <- py_get record field (JDict []) ;;
  py_get actor "login" JNull.

(** [record.get(field, {}) and record[field].get('login')] *)
Definition get_and_login (record : json) (field : string) : outcome json :=
  actor <- py_get record field (JDict []) ;;
  py_and actor (a <- py_item record field ;; py_get a "login" JNull).

Definition issue_step (rc : index) (issue : json) : outcome index :=
  repo <- py_get issue "repo_name" (JStr "unknown") ;;
  c1 <- get_get_login issue "user" ;;
  rc <- (if truthy c1 then add_login rc repo issue "user" else Ok rc) ;;
  c2 <- get_and_login issue "assignee" ;;
  if truthy c2 then add_login rc repo issue "assignee" else Ok rc.

Definition pr_step (rc : index) (pr : json) : outcome index :=
  repo <- py_get pr "repo_name" (JStr "unknown") ;;
  c <- get_get_login pr "user" ;;
  if truthy c then add_login rc repo pr "user" else Ok rc.

Definition commit_step (rc : index) (commit : json) : outcome index :=
  repo <- py_get commit "repo_name" (JStr "unknown") ;;
  c <- get_and_login commit "author" ;;
  if truthy c then add_login rc repo commit "author" else Ok rc.

Definition event_step (rc : index) (event : json) : outcome index :=
  repo <- py_get event "repo_name" (JStr "unknown") ;;
  c <- get_and_login event "actor" ;;
  if truthy c then add_login rc repo event "actor" else Ok rc.

Definition collect_contributors
  (issues_data prs_data commits_data issue_events_data : list json)
  : outcome index :=
  _ <- skip_metadata [issues_data; prs_data; commits_data; issue_events_data] ;;
  rc <- for_each issue_step issues_data [] ;;
  rc <- for_each pr_step prs_data rc ;;
  rc <- for_each commit_step commits_data rc ;;
  for_each event_step issue_events_data rc.

(** *** Lines 53-68: edges between the contributors of a repository *)

Definition link (repo : repo_id) (g : graph) (user1 user2 : string) : graph :=
  if eq_dec user1 user2 then g
  else
    let edge_key := canonical user1 user2 in
    {| collaboration_repos :=
         dd_update [] (fun l => l ++ [repo]) edge_key (collaboration_repos g);
       user_collaborations :=
         dd_update [] (set_add user1) user2
           (dd_update [] (set_add user2) user1 (user_collaborations g)) |}.

(** The two nested loops over [contributors_list] and
    [contributors_list[i+1:]]. *)
Fixpoint link_all (repo : repo_id) (contributors_list : list string) (g : graph)
  : graph :=
  match contributors_list with
  | [] => g
  | user1 :: rest =>
      link_all repo rest
        (fold_left (fun g user2 => link repo g user1 user2) rest g)
  end.

Definition build_graph (rc : index) : graph :=
  fold_left (fun g '(repo, contributors) => link_all repo contributors g)
    rc empty_graph.

(** *** Lines 70-167: the metrics *)

Definition edge_of (entry : edge_key * list repo_id) : Edge.t :=
  let '((source, target), repos) := entry in
  {| Edge.source := source;
     Edge.target := target;
     Edge.weight := len repos;
     Edge.repos := repos;
     Edge.collaboration_type := "same_repository" |}.

(** [[repo for repo, contributors in repo_collaborators.items()
      if user in contributors]] *)
Definition repos_contributed (rc : index) (user : string) : list repo_id :=
  map fst (filter (fun '(_, contributors) => mem user contributors) rc).

Definition user_metric_of (rc : index) (entry : string * pyset) : UserMetric.t :=
  let '(user, collaborators) := entry in
  {| UserMetric.user := user;
     UserMetric.collaborator_count := len collaborators;
     UserMetric.collaborators := collaborators;
     UserMetric.repositories_contributed := len (repos_contributed rc user) |}.

Definition repo_analysis_of (collaboration_edges : list Edge.t)
  (entry : repo_id * pyset) : outcome RepoAnalysis.t :=
  let '(repo, contributors) := entry in
  let contributors_list := contributors in
  let potential_collaborations :=
    len contributors_list * (len contributors_list - 1) / 2 in
  let actual_collaborations :=
    len (filter (fun e => mem repo (Edge.repos e)) collaboration_edges) in
  density <- (if potential_collaborations >? 0
              then py_truediv actual_collaborations potential_collaborations
              else Ok 0%Q) ;;
  Ok {| RepoAnalysis.repo := repo;
        RepoAnalysis.contributor_count := len contributors_list;
        RepoAnalysis.contributors := contributors_list;
        RepoAnalysis.potential_collaborations := potential_collaborations;
        RepoAnalysis.actual_collaborations := actual_collaborations;
        RepoAnalysis.collaboration_density := density |}.

(** Lines 138-147: the loop over the keys of [user_collaborations]. *)
Definition hub_step (rc : index) (uc : dict string pyset)
  (cross_repo_contributors : dict string Hub.t) (user : string)
  : dict string Hub.t :=
  let repos_contributed := repos_contributed rc user in
  if len repos_contributed >? 1 then
    dict_set user
      {| Hub.user := user;
         Hub.repositories := repos_contributed;
         Hub.repo_count := len repos_contributed;
         Hub.total_collaborators := len (dd_get [] user uc) |}
      cross_repo_contributors
  else cross_repo_contributors.

Definition analyse (rc : index) : outcome output :=
  let g := build_graph rc in
  let uc := user_collaborations g in
  let collaboration_edges :=
    sort_desc Edge.weight (map edge_of (collaboration_repos g)) in
  let user_metrics :=
    sort_desc UserMetric.collaborator_count (map (user_metric_of rc) uc) in
  repo_analysis <- traverse (repo_analysis_of collaboration_edges) rc ;;
  let repo_analysis := sort_desc RepoAnalysis.contributor_count repo_analysis in
  let cross_repo_contributors := fold_left (hub_step rc uc) (keys uc) [] in
  let cross_repo_list :=
    match cross_repo_contributors with
    | [] => None
    | _ => Some (sort_desc Hub.repo_count (values cross_repo_contributors))
    end in
  avg_user <- match uc with
              | [] => Ok 0%Q
              | _ => py_truediv (sum (map (fun c => len c) (values uc))) (len uc)
              end ;;
  avg_repo <- match rc with
              | [] => Ok 0%Q
              | _ => py_truediv (sum (map (fun c => len c) (values rc))) (len rc)
              end ;;
  Ok {| collaboration_edges := collaboration_edges;
        user_metrics := user_metrics;
        repo_analysis := repo_analysis;
        cross_repo_list := cross_repo_list;
        network_stats :=
          {| NetworkStats.total_users := len uc;
             NetworkStats.total_collaborations := len collaboration_edges;
             NetworkStats.total_repositories := len rc;
             NetworkStats.cross_repo_contributors := len cross_repo_contributors;
             NetworkStats.avg_collaborators_per_user := avg_user;
             NetworkStats.avg_contributors_per_repo := avg_repo |} |}.

Definition process_collaboration_networks
  (issues_data prs_data commits_data issue_events_data : list json)
  : outcome output :=
  rc <- collect_contributors issues_data prs_data commits_data issue_events_data ;;
  analyse rc.

End Engine.

(** ** Notions used in the statements *)

(** Two logins are together in repository [r] of the index. *)
Definition together (rc : index) (a b : string) (r : repo_id) : Prop :=
  exists s, In (r, s) rc /\ In a s /\ In b s.

(** The index is a dict of sets: keys and members occur once. *)
Definition index_wf (rc : index) : Prop :=
  NoDup (keys rc) /\ Forall (fun entry => NoDup (snd entry)) rc.

(** The pairs the two nested loops of [link_all] go through. *)
Fixpoint pairs_of (l : list string) : list (string * string) :=
  match l with
  | [] => []
  | user1 :: rest => map (pair user1) rest ++ pairs_of rest
  end.

Definition canonical_pair (p : string * string) : edge_key :=
  canonical (fst p) (snd p).

(** The repositories recorded for an edge key, the collaborators recorded
    for a login. *)
Definition repos_at (k : edge_key) (g : graph) : list repo_id :=
  dd_get [] k (collaboration_repos g).

Definition collaborators_at (a : string) (g : graph) : pyset :=
  dd_get [] a (user_collaborations g).

(** Both dicts of the graph have pairwise different keys and no empty
    entry. *)
Definition graph_ok (g : graph) : Prop :=
  NoDup (keys (collaboration_repos g)) /\
  NoDup (keys (user_collaborations g)) /\
  (forall k, In k (keys (collaboration_repos g)) -> repos_at k g <> []) /\
  (forall a, In a (keys (user_collaborations g)) -> collaborators_at a g <> []).

(** What the graph records, read off the index. *)
Definition graph_spec (rc : index) (g : graph) : Prop :=
  graph_ok g /\
  (forall k r, In r (repos_at k g) <->
     String.ltb (fst k) (snd k) = true /\ together rc (fst k) (snd k) r) /\
  (forall a b, In b (collaborators_at a g) <->
     a <> b /\ exists r, together rc a b r).

(** One turn of the inner loop of [link_all], on a pair. *)
Definition link_pair {PS : PySet} (repo : repo_id) (g : graph)
  (p : string * string) : graph :=
  link repo g (fst p) (snd p).

(** The profile [repo_analysis_of] computes, the hub entry [hub_step]
    stores, and its test. *)
Definition profile_of (collaboration_edges : list Edge.t)
  (entry : repo_id * pyset) : RepoAnalysis.t :=
  let potential := len (snd entry) * (len (snd entry) - 1) / 2 in
  let actual :=
    len (filter (fun e => mem (fst entry) (Edge.repos e)) collaboration_edges) in
  {| RepoAnalysis.repo := fst entry;
     RepoAnalysis.contributor_count := len (snd entry);
     RepoAnalysis.contributors := snd entry;
     RepoAnalysis.potential_collaborations := potential;
     RepoAnalysis.actual_collaborations := actual;
     RepoAnalysis.collaboration_density :=
       if potential >? 0 then Qred (inject_Z actual / inject_Z potential)
       else 0%Q |}.

Definition hub_of {PS : PySet} (rc : index) (uc : dict string pyset)
  (user : string) : Hub.t :=
  {| Hub.user := user;
     Hub.repositories := repos_contributed rc user;
     Hub.repo_count := len (repos_contributed rc user);
     Hub.total_collaborators := len (dd_get [] user uc) |}.

Definition in_many_repos {PS : PySet} (rc : index) (user : string) : bool :=
  len (repos_contributed rc user) >? 1.

(** The key of an edge of the output. *)
Definition edge_pair (e : Edge.t) : edge_key := (Edge.source e, Edge.target e).

(** A run that does not end in a division fault. *)
Definition no_div_fault {A : Type} (m : outcome A) : Prop :=
  m <> Raise ZeroDivisionError.

(** Some edge of the output joins [a] and [b]. *)
Definition joined (out : output) (a b : string) : Prop :=
  exists e, In e (collaboration_edges out) /\
    ((Edge.source e = a /\ Edge.target e = b) \/
     (Edge.source e = b /\ Edge.target e = a)).

(** [b] is listed among the collaborators of [a]. *)
Definition collaborates (out : output) (a b : string) : Prop :=
  exists m, In m (user_metrics out) /\
    UserMetric.user m = a /\ In b (UserMetric.collaborators m).

(** The repository profiles whose contributor set contains [login]. *)
Definition contributed (out : output) (login : string) : list RepoAnalysis.t :=
  filter (fun ra => mem login (RepoAnalysis.contributors ra)) (repo_analysis out).

Definition is_hub (out : output) (login : string) : Prop :=
  exists h, In h (hub_list out) /\ Hub.user h = login.

(** Decreasing order of a key. *)
Definition sorted_desc {A : Type} (key : A -> Z) (l : list A) : Prop :=
  StronglySorted (fun x y => key y <= key x) l.

(** The order of [sorted] on pairs: by the first login, then by the
    second. *)
Definition pair_leb (p q : edge_key) : bool :=
  String.ltb (fst p) (fst q) ||
  (String.eqb (fst p) (fst q) && negb (String.ltb (snd q) (snd p))).

(** An edge list in decreasing weight, edges of one weight in the order of
    their pairs. *)
Definition weight_then_pair (e1 e2 : Edge.t) : Prop :=
  Edge.weight e2 < Edge.weight e1 \/
  (Edge.weight e1 = Edge.weight e2 /\
   pair_leb (edge_pair e1) (edge_pair e2) = true).

Definition weight_then_pair_order (l : list Edge.t) : Prop :=
  StronglySorted weight_then_pair l.

(** The edges in the order lines 72-79 build them, before the sort: the
    order of the keys of [collaboration_repos]. *)
Definition generated_edges {PS : PySet} (rc : index) : list Edge.t :=
  map edge_of (collaboration_repos (build_graph rc)).

(** The edges of weight [w], in the order of the list. *)
Definition of_weight (w : Z) (l : list Edge.t) : list Edge.t :=
  filter (fun e => Edge.weight e =? w) l.

(** The four kinds of record, the field that holds the actor of each, and
    the loop body that reads it. *)
Inductive kind : Type := Issue | PullRequest | Commit | IssueEvent.

Definition actor_field (k : kind) : string :=
  match k with
  | Issue | PullRequest => "user"
  | Commit => "author"
  | IssueEvent => "actor"
  end.

Definition step {PS : PySet} (k : kind) : index -> json -> outcome index :=
  match k with
  | Issue => issue_step
  | PullRequest => pr_step
  | Commit => commit_step
  | IssueEvent => event_step
  end.







(** The pair (repository, login) entered in the index, and the logins
    of a repository. *)
Definition add_pair {PS : PySet} (r : repo_id) (login : string) (rc : index)
  : index :=
  dd_update [] (set_add login) r rc.

Definition bucket (r : repo_id) (rc : index) : pyset := dd_get [] r rc.

(** *** The pairs a record yields

    What lines 29-49 read off one record, without the index: the tests are
    those of the loop bodies, and each [add] is replaced by the pair it
    enters. *)

(** The pair of [repo_collaborators[repo].add(record[field]['login'])]. *)
Definition login_pair (repo record : json) (field : string)
  : outcome (repo_id * string) :=
  k <- bucket_key repo ;;
  actor <- py_item record field ;;
  login <- py_item actor "login" ;;
  m <- member_key login ;;
  Ok (k, m).

Definition guarded_pair (c repo record : json) (field : string)
  : outcome (list (repo_id * string)) :=
  if truthy c then p <- login_pair repo record field ;; Ok [p] else Ok [].

Definition record_pairs (k : kind) (record : json)
  : outcome (list (repo_id * string)) :=
  repo <- py_get record "repo_name" (JStr "unknown") ;;
  match k with
  | Issue =>
      c1 <- get_get_login record "user" ;;
      ps1 <- guarded_pair c1 repo record "user" ;;
      c2 <- get_and_login record "assignee" ;;
      ps2 <- guarded_pair c2 repo record "assignee" ;;
      Ok (ps1 ++ ps2)
  | PullRequest =>
      c <- get_get_login record "user" ;;
      guarded_pair c repo record "user"
  | Commit =>
      c <- get_and_login record "author" ;;
      guarded_pair c repo record "author"
  | IssueEvent =>
      c <- get_and_login record "actor" ;;
      guarded_pair c repo record "actor"
  end.

Definition add_pairs {PS : PySet} (ps : list (repo_id * string)) (rc : index)
  : index :=
  fold_left (fun rc p => add_pair (fst p) (snd p) rc) ps rc.

(** Some record of the list yields the pair of [r] and [login]. *)
Definition yields (k : kind) (records : list json) (r : repo_id)
  (login : string) : Prop :=
  exists record ps,
    In record records /\ record_pairs k record = Ok ps /\ In (r, login) ps.

(** *** Records the loops read without an error

    An object; [repo_name] missing, null or a string; each actor field
    missing or an object whose login is missing, null or a string; an
    assignee, author or actor may be null as well. *)
Definition login_ok (actor : jdict) : bool :=
  match lookup "login" actor with
  | None | Some JNull | Some (JStr _) => true
  | Some _ => false
  end.

Definition actor_ok (nullable : bool) (d : jdict) (field : string) : bool :=
  match lookup field d with
  | None => true
  | Some (JDict u) => login_ok u
  | Some JNull => nullable
  | Some _ => false
  end.

Definition repo_ok (d : jdict) : bool :=
  match lookup "repo_name" d with
  | None | Some JNull | Some (JStr _) => true
  | Some _ => false
  end.

Definition record_ok (k : kind) (record : json) : bool :=
  match record with
  | JDict d =>
      repo_ok d &&
      match k with
      | Issue => actor_ok false d "user" && actor_ok true d "assignee"
      | PullRequest => actor_ok false d "user"
      | Commit => actor_ok true d "author"
      | IssueEvent => actor_ok true d "actor"
      end
  | _ => false
  end.

(** Every repository of the index has a contributor. *)
Definition index_full (rc : index) : Prop :=
  Forall (fun entry => snd entry <> []) rc.

(** *** The inputs the model follows

    A repository name, or a login, that is not a number and not a boolean;
    a record whose [repo_name] and logins are such. *)
Definition plain (v : json) : bool :=
  match v with
  | JNum _ | JBool _ => false
  | _ => true
  end.

Definition plain_actor (d : jdict) (field : string) : bool :=
  match lookup field d with
  | Some (JDict u) =>
      match lookup "login" u with Some v => plain v | None => true end
  | _ => true
  end.

Definition plain_record (k : kind) (record : json) : bool :=
  match record with
  | JDict d =>
      match lookup "repo_name" d with Some v => plain v | None => true end &&
      plain_actor d (actor_field k) &&
      match k with Issue => plain_actor d "assignee" | _ => true end
  | _ => true
  end.

(** The exceptions a run can end with. *)
Definition read_error (e : exn) : Prop := e = AttributeError \/ e = TypeError.

(** The repositories that list both logins of a pair, in the order of the
    index. *)
Definition shared (k : edge_key) (rc : index) : list repo_id :=
  map fst (filter (fun entry => mem (fst k) (snd entry) && mem (snd k) (snd entry)) rc).

(** A pair read the other way round. *)
Definition swap_pair (p : string * string) : string * string := (snd p, fst p).

(** *** Totals over the published lists *)

Definition total_weight (out : output) : Z :=
  sum (map Edge.weight (collaboration_edges out)).

Definition total_potential (out : output) : Z :=
  sum (map RepoAnalysis.potential_collaborations (repo_analysis out)).

Definition total_degree (out : output) : Z :=
  sum (map UserMetric.collaborator_count (user_metrics out)).


(** ** Sample runs

    The cross-repository scenario: alice contributes to R1 and R2, bob
    only to R1, carol only to R2. *)

Definition actor (login : string) : json := JDict [("login", JStr login)].

Definition record (repo field login : string) : json :=
  JDict [("repo_name", JStr repo); (field, actor login)].

Definition hub_issues : list json :=
  [record "R1" "user" "alice"; record "R2" "user" "alice"].

Definition hub_prs : list json := [record "R1" "user" "bob"].

Definition hub_events : list json := [record "R2" "actor" "carol"].

(** alice is the only contributor of R1 and of R2. *)
Definition solo_issues : list json :=
  [record "R1" "user" "alice"; record "R2" "user" "alice"].

(** Two edges of weight 1: z-y in R1, generated first, and a-b in R2. *)
Definition tie_issues : list json :=
  [record "R1" "user" "z"; record "R1" "user" "y";
   record "R2" "user" "a"; record "R2" "user" "b"].

(** A leading entry with a [_metadata] key that also names a repository
    and a reporter, then an issue of bob. *)
Definition metadata_issues : list json :=
  [JDict [("_metadata", JDict [("count", JNum 1)]);
          ("repo_name", JStr "R1"); ("user", actor "alice")];
   record "R1" "user" "bob"].

(** Records whose actor field is present and null. *)
Definition null_actor (field : string) : json :=
  JDict [("repo_name", JStr "R1"); (field, JNull)].


(** A commit of alice with no [repo_name], read after an issue of hers. *)
Definition stray_commit : json := JDict [("author", actor "alice")].

(** ** Strings: the order of [sorted] *)

Lemma compare_refl (s : string) : String.compare s s = Eq.
Proof.
  pose proof (String.compare_antisym s s) as H.
  destruct (String.compare s s); simpl in H; congruence.
Qed.

Lemma ltb_irrefl (s : string) : String.ltb s s = false.
Proof. unfold String.ltb. now rewrite compare_refl. Qed.

Lemma ltb_neq (a b : string) : String.ltb a b = true -> a <> b.
Proof. intros H ->. rewrite ltb_irrefl in H. discriminate. Qed.

Lemma ltb_asym (a b : string) : String.ltb a b = true -> String.ltb b a = false.
Proof.
  unfold String.ltb. rewrite (String.compare_antisym a b).
  destruct (String.compare b a); simpl; congruence.
Qed.

Lemma ltb_total (a b : string) :
  a <> b -> String.ltb a b = true \/ String.ltb b a = true.
Proof.
  intros Hne. unfold String.ltb. rewrite (String.compare_antisym a b).
  destruct (String.compare b a) eqn:E; simpl; auto.
  apply String.compare_eq_iff in E. congruence.
Qed.

Lemma canonical_sorted (a b : string) :
  String.ltb a b = true -> canonical a b = (a, b).
Proof. intros H. unfold canonical. now rewrite (ltb_asym _ _ H). Qed.

Lemma canonical_swap (a b : string) : canonical a b = canonical b a.
Proof.
  unfold canonical.
  destruct (String.ltb b a) eqn:E1, (String.ltb a b) eqn:E2; try reflexivity.
  - rewrite (ltb_asym _ _ E1) in E2. discriminate.
  - destruct (string_dec a b) as [->|Hne]; [reflexivity|].
    destruct (ltb_total Hne); congruence.
Qed.

Lemma canonical_lt (a b : string) :
  a <> b -> String.ltb (fst (canonical a b)) (snd (canonical a b)) = true.
Proof.
  intros Hne. unfold canonical. destruct (String.ltb b a) eqn:E; simpl; auto.
  destruct (ltb_total Hne); congruence.
Qed.

Lemma canonical_ends (a b : string) :
  (fst (canonical a b) = a /\ snd (canonical a b) = b) \/
  (fst (canonical a b) = b /\ snd (canonical a b) = a).
Proof. unfold canonical. destruct (String.ltb b a); simpl; auto. Qed.

Lemma canonical_inj (a b c d : string) :
  canonical a b = canonical c d -> (a = c /\ b = d) \/ (a = d /\ b = c).
Proof.
  intros H.
  destruct (canonical_ends a b) as [[H1 H2]|[H1 H2]],
           (canonical_ends c d) as [[H3 H4]|[H3 H4]];
    rewrite H in H1, H2; intuition congruence.
Qed.

(** ** Dictionaries *)

Section DictFacts.
Context {K V : Type} `{EqDec K}.
Variable default : V.

Lemma dict_get_None (k : K) (d : dict K V) :
  dict_get k d = None <-> ~ In k (keys d).
Proof.
  induction d as [|[k' v] d IH]; simpl; [tauto|].
  destruct (eq_dec k k') as [->|Hne].
  - split; [discriminate|tauto].
  - rewrite IH. intuition congruence.
Qed.

Lemma dict_get_In (k : K) (v : V) (d : dict K V) :
  NoDup (keys d) -> (dict_get k d = Some v <-> In (k, v) d).
Proof.
  induction d as [|[k' v'] d IH]; simpl; intros Hnd.
  - split; [discriminate|tauto].
  - inversion Hnd as [|? ? Hnot Hnd']; subst.
    destruct (eq_dec k k') as [->|Hne].
    + split.
      * intros [= ->]. now left.
      * intros [[= ->]|Hin]; [reflexivity|].
        exfalso. apply Hnot. apply (in_map fst) in Hin. exact Hin.
    + rewrite (IH Hnd'). split; [tauto|].
      intros [[= E1 E2]|Hin]; [congruence|assumption].
Qed.

Lemma dd_get_In (k : K) (v : V) (d : dict K V) :
  NoDup (keys d) -> In (k, v) d -> dd_get default k d = v.
Proof.
  intros Hnd Hin. unfold dd_get. apply dict_get_In in Hin; [|exact Hnd].
  now rewrite Hin.
Qed.

Lemma dd_get_entry (k : K) (d : dict K V) :
  In k (keys d) -> In (k, dd_get default k d) d.
Proof.
  unfold dd_get. induction d as [|[k' v] d IH]; simpl; [tauto|].
  destruct (eq_dec k k') as [->|Hne]; [now left|].
  intros [E|Hin]; [congruence|]. right. now apply IH.
Qed.

Lemma dd_get_missing (k : K) (d : dict K V) :
  ~ In k (keys d) -> dd_get default k d = default.
Proof.
  intros Hn. unfold dd_get. apply dict_get_None in Hn. now rewrite Hn.
Qed.

Lemma dd_update_keys (f : V -> V) (k k' : K) (d : dict K V) :
  In k' (keys (dd_update default f k d)) <-> k' = k \/ In k' (keys d).
Proof.
  induction d as [|[k0 v] d IH]; simpl.
  - intuition congruence.
  - destruct (eq_dec k k0) as [->|Hne]; simpl.
    + intuition congruence.
    + rewrite IH. intuition congruence.
Qed.

Lemma dd_update_NoDup (f : V -> V) (k : K) (d : dict K V) :
  NoDup (keys d) -> NoDup (keys (dd_update default f k d)).
Proof.
  induction d as [|[k0 v] d IH]; simpl; intros Hnd.
  - constructor; [simpl; tauto|constructor].
  - inversion Hnd as [|? ? Hnot Hnd']; subst.
    destruct (eq_dec k k0) as [->|Hne]; simpl.
    + now constructor.
    + constructor; [|now apply IH].
      fold (keys (dd_update default f k d)). rewrite dd_update_keys.
      intuition congruence.
Qed.

Lemma dd_get_update_same (f : V -> V) (k : K) (d : dict K V) :
  dd_get default k (dd_update default f k d) = f (dd_get default k d).
Proof.
  unfold dd_get. induction d as [|[k0 v] d IH]; simpl.
  - destruct (eq_dec k k); [reflexivity|congruence].
  - destruct (eq_dec k k0) as [->|Hne]; simpl.
    + destruct (eq_dec k0 k0); [reflexivity|congruence].
    + destruct (eq_dec k k0); [congruence|exact IH].
Qed.

Lemma dd_get_update_other (f : V -> V) (k k' : K) (d : dict K V) :
  k' <> k -> dd_get default k' (dd_update default f k d) = dd_get default k' d.
Proof.
  intros Hne. unfold dd_get. induction d as [|[k0 v] d IH]; simpl.
  - destruct (eq_dec k' k); [congruence|reflexivity].
  - destruct (eq_dec k k0) as [->|Hne0]; simpl.
    + destruct (eq_dec k' k0); [congruence|reflexivity].
    + destruct (eq_dec k' k0); [reflexivity|exact IH].
Qed.

Lemma dict_set_fresh (k : K) (v : V) (d : dict K V) :
  ~ In k (keys d) -> dict_set k v d = d ++ [(k, v)].
Proof.
  induction d as [|[k0 v0] d IH]; simpl; intros Hn; [reflexivity|].
  destruct (eq_dec k k0) as [->|Hne]; [tauto|].
  f_equal. apply IH. tauto.
Qed.

End DictFacts.

(** ** Sorting *)

Section SortFacts.
Context {A : Type}.
Variable key : A -> Z.

Lemma insert_desc_perm (x : A) (l : list A) :
  Permutation (insert_desc key x l) (x :: l).
Proof.
  induction l as [|y l IH]; simpl; [reflexivity|].
  destruct (key x <? key y); [|reflexivity].
  rewrite IH. apply perm_swap.
Qed.

Lemma sort_desc_perm (l : list A) : Permutation (sort_desc key l) l.
Proof.
  induction l as [|x l IH]; simpl; [reflexivity|].
  rewrite insert_desc_perm. now constructor.
Qed.

Lemma sort_desc_In (x : A) (l : list A) : In x (sort_desc key l) <-> In x l.
Proof.
  split; apply Permutation_in; [|symmetry]; apply sort_desc_perm.
Qed.

Lemma insert_desc_sorted (x : A) (l : list A) :
  sorted_desc key l -> sorted_desc key (insert_desc key x l).
Proof.
  unfold sorted_desc. induction l as [|y l IH]; simpl; intros Hs.
  - constructor; constructor.
  - inversion Hs as [|? ? Hs' Hall]; subst.
    destruct (key x <? key y) eqn:E.
    + apply Z.ltb_lt in E. constructor; [now apply IH|].
      apply Forall_forall. intros z Hz.
      apply (Permutation_in _ (insert_desc_perm x l)) in Hz.
      destruct Hz as [<-|Hz]; [lia|].
      rewrite Forall_forall in Hall. now apply Hall.
    + apply Z.ltb_ge in E. constructor; [exact Hs|].
      constructor; [exact E|].
      rewrite Forall_forall in Hall |- *. intros z Hz.
      specialize (Hall z Hz). lia.
Qed.

Lemma sort_desc_sorted (l : list A) : sorted_desc key (sort_desc key l).
Proof.
  induction l as [|x l IH]; simpl; [constructor|].
  now apply insert_desc_sorted.
Qed.

(** Stability: the entries of one key keep their order. *)
Lemma insert_desc_stable (w : Z) (x : A) (l : list A) :
  filter (fun y => key y =? w) (insert_desc key x l) =
  filter (fun y => key y =? w) (x :: l).
Proof.
  induction l as [|y l IH]; [reflexivity|].
  simpl insert_desc. destruct (key x <? key y) eqn:E; [|reflexivity].
  apply Z.ltb_lt in E. simpl in *. rewrite IH.
  destruct (key x =? w) eqn:Ex, (key y =? w) eqn:Ey; try reflexivity.
  apply Z.eqb_eq in Ex, Ey. lia.
Qed.

Lemma sort_desc_stable (w : Z) (l : list A) :
  filter (fun y => key y =? w) (sort_desc key l) =
  filter (fun y => key y =? w) l.
Proof.
  induction l as [|x l IH]; [reflexivity|].
  simpl sort_desc. rewrite insert_desc_stable. simpl. now rewrite IH.
Qed.

End SortFacts.

Lemma filter_length_perm {A : Type} (f : A -> bool) (l l' : list A) :
  Permutation l l' -> length (filter f l) = length (filter f l').
Proof.
  induction 1 as [|x l l' _ IH|x y l|l l' l'' _ IH1 _ IH2]; simpl.
  - reflexivity.
  - destruct (f x); simpl; congruence.
  - destruct (f x), (f y); reflexivity.
  - congruence.
Qed.

Lemma len_perm {A : Type} (l l' : list A) : Permutation l l' -> len l = len l'.
Proof. intros Hp. unfold len. now rewrite (Permutation_length Hp). Qed.

(** ** Sets *)

Section SetFacts.
Context {PS : PySet}.

Lemma set_add_perm (x : string) (s : pyset) :
  In x s \/ Permutation (set_add x s) (x :: s).
Proof.
  destruct (in_dec string_dec x s) as [Hin|Hn]; [now left|].
  right. now apply set_add_new.
Qed.

Lemma set_add_In (x y : string) (s : pyset) :
  In y (set_add x s) <-> y = x \/ In y s.
Proof.
  destruct (in_dec string_dec x s) as [Hin|Hn].
  - rewrite (set_add_old _ _ Hin). intuition congruence.
  - pose proof (set_add_new _ _ Hn) as Hp. split.
    + intros Hy. apply (Permutation_in _ Hp) in Hy. simpl in Hy. intuition.
    + intros Hy. apply (Permutation_in _ (Permutation_sym Hp)). simpl. intuition.
Qed.

Lemma set_add_NoDup (x : string) (s : pyset) : NoDup s -> NoDup (set_add x s).
Proof.
  intros Hnd. destruct (in_dec string_dec x s) as [Hin|Hn].
  - now rewrite (set_add_old _ _ Hin).
  - apply (Permutation_NoDup (Permutation_sym (set_add_new _ _ Hn))).
    now constructor.
Qed.

Lemma set_add_nonempty (x : string) (s : pyset) : set_add x s <> [].
Proof.
  intros E. assert (Hin : In x (set_add x s)) by (apply set_add_In; now left).
  rewrite E in Hin. exact Hin.
Qed.

End SetFacts.

(** ** The pairs of a contributor list *)

Lemma pairs_of_In (a b : string) (l : list string) :
  In (a, b) (pairs_of l) -> In a l /\ In b l.
Proof.
  induction l as [|u l IH]; simpl; [tauto|].
  rewrite in_app_iff, in_map_iff. intros [[x [[= <- <-] Hx]]|Hin]; [tauto|].
  specialize (IH Hin). tauto.
Qed.

Lemma pairs_of_complete (a b : string) (l : list string) :
  In a l -> In b l -> a <> b ->
  In (a, b) (pairs_of l) \/ In (b, a) (pairs_of l).
Proof.
  induction l as [|u l IH]; simpl; [tauto|].
  intros Ha Hb Hne. rewrite !in_app_iff, !in_map_iff.
  destruct Ha as [->|Ha], Hb as [->|Hb].
  - congruence.
  - left. left. now exists b.
  - right. left. now exists a.
  - destruct (IH Ha Hb Hne); tauto.
Qed.

Lemma pairs_of_neq (a b : string) (l : list string) :
  NoDup l -> In (a, b) (pairs_of l) -> a <> b.
Proof.
  induction l as [|u l IH]; simpl; [tauto|].
  intros Hnd. inversion Hnd as [|? ? Hnot Hnd']; subst.
  rewrite in_app_iff, in_map_iff. intros [[x [[= <- <-] Hx]]|Hin].
  - intros ->. tauto.
  - now apply IH.
Qed.

Lemma pairs_of_length (l : list string) :
  (2 * length (pairs_of l) = length l * (length l - 1))%nat.
Proof.
  induction l as [|u l IH]; simpl; [reflexivity|].
  rewrite length_app, length_map. nia.
Qed.

Lemma potential_is_pairs (l : list string) :
  len l * (len l - 1) / 2 = len (pairs_of l).
Proof.
  unfold len. pose proof (pairs_of_length l) as H.
  assert (E : Z.of_nat (length l) * (Z.of_nat (length l) - 1)
              = Z.of_nat (length (pairs_of l)) * 2) by nia.
  rewrite E. apply Z.div_mul. lia.
Qed.

Lemma canonical_pairs_NoDup (l : list string) :
  NoDup l -> NoDup (map canonical_pair (pairs_of l)).
Proof.
  induction l as [|u l IH]; simpl; intros Hnd; [constructor|].
  inversion Hnd as [|? ? Hnot Hnd']; subst.
  rewrite map_app, map_map. apply NoDup_app; repeat split.
  - clear IH Hnd. induction l as [|x l IHl]; simpl; [constructor|].
    inversion Hnd' as [|? ? Hx Hl]; subst. constructor.
    + rewrite in_map_iff. intros [y [Hy Hin]]. unfold canonical_pair in Hy.
      simpl in Hy. apply canonical_inj in Hy.
      destruct Hy as [[_ ->]|[-> ->]]; [tauto|]. simpl in Hnot. tauto.
    + apply IHl; [simpl in Hnot; tauto|exact Hl].
  - now apply IH.
  - intros k Hk1 Hk2. rewrite in_map_iff in Hk1, Hk2.
    destruct Hk1 as [x [<- Hx]]. destruct Hk2 as [[a b] [Hab Hin]].
    apply pairs_of_In in Hin. unfold canonical_pair in Hab. simpl in Hab.
    apply canonical_inj in Hab. destruct Hab as [[-> _]|[_ ->]]; tauto.
Qed.

(** ** The contributor index is a dict of sets *)

Ltac inv_bind H :=
  match type of H with
  | bind ?m _ = Ok _ =>
      let E := fresh "E" in
      destruct m eqn:E; simpl in H; [|discriminate H|discriminate H]
  end.

Lemma for_each_inv {S A : Type} (P : S -> Prop) (body : S -> A -> outcome S) :
  (forall s a s', P s -> body s a = Ok s' -> P s') ->
  forall l s s', P s -> for_each body l s = Ok s' -> P s'.
Proof.
  intros Hstep. induction l as [|a l IH]; simpl; intros s s' Hs Hrun.
  - now injection Hrun as <-.
  - inv_bind Hrun. eapply IH; [|exact Hrun]. eapply Hstep; eassumption.
Qed.

Section IndexFacts.
Context {PS : PySet}.

Lemma add_member_wf (k : repo_id) (m : string) (rc : index) :
  index_wf rc -> index_wf (dd_update [] (set_add m) k rc).
Proof.
  intros [Hk Hs]. split; [now apply dd_update_NoDup|].
  clear Hk. induction rc as [|[k0 s] rc IH]; simpl.
  - constructor; [|constructor]. simpl. apply set_add_NoDup. constructor.
  - inversion Hs as [|? ? Hs0 Hs']; subst. simpl in Hs0.
    destruct (eq_dec k k0); constructor; simpl; auto using set_add_NoDup.
Qed.

Lemma add_login_wf (rc rc' : index) (repo record : json) (field : string) :
  add_login rc repo record field = Ok rc' -> index_wf rc -> index_wf rc'.
Proof.
  unfold add_login. intros Hrun Hwf.
  inv_bind Hrun. inv_bind Hrun. inv_bind Hrun. inv_bind Hrun.
  injection Hrun as <-. now apply add_member_wf.
Qed.

Lemma guarded_add_wf (c : json) (rc rc' : index) (repo record : json)
  (field : string) :
  (if truthy c then add_login rc repo record field else Ok rc) = Ok rc' ->
  index_wf rc -> index_wf rc'.
Proof.
  destruct (truthy c); [apply add_login_wf|].
  now intros [= <-].
Qed.

Lemma issue_step_wf (rc : index) (issue : json) (rc' : index) :
  index_wf rc -> issue_step rc issue = Ok rc' -> index_wf rc'.
Proof.
  unfold issue_step. intros Hwf Hrun.
  inv_bind Hrun. inv_bind Hrun. inv_bind Hrun. inv_bind Hrun.
  eapply guarded_add_wf; [exact Hrun|]. eapply guarded_add_wf; eassumption.
Qed.

Lemma pr_step_wf (rc : index) (pr : json) (rc' : index) :
  index_wf rc -> pr_step rc pr = Ok rc' -> index_wf rc'.
Proof.
  unfold pr_step. intros Hwf Hrun. inv_bind Hrun. inv_bind Hrun.
  eapply guarded_add_wf; eassumption.
Qed.

Lemma commit_step_wf (rc : index) (commit : json) (rc' : index) :
  index_wf rc -> commit_step rc commit = Ok rc' -> index_wf rc'.
Proof.
  unfold commit_step. intros Hwf Hrun. inv_bind Hrun. inv_bind Hrun.
  eapply guarded_add_wf; eassumption.
Qed.

Lemma event_step_wf (rc : index) (event : json) (rc' : index) :
  index_wf rc -> event_step rc event = Ok rc' -> index_wf rc'.
Proof.
  unfold event_step. intros Hwf Hrun. inv_bind Hrun. inv_bind Hrun.
  eapply guarded_add_wf; eassumption.
Qed.

Lemma collect_contributors_wf (issues prs commits events : list json)
  (rc : index) :
  collect_contributors issues prs commits events = Ok rc -> index_wf rc.
Proof.
  unfold collect_contributors. intros Hrun.
  inv_bind Hrun. inv_bind Hrun. inv_bind Hrun. inv_bind Hrun.
  assert (H0 : index_wf []) by (split; constructor).
  pose proof (for_each_inv index_wf issue_step issue_step_wf _ _ H0 E0) as H1.
  pose proof (for_each_inv index_wf pr_step pr_step_wf _ _ H1 E1) as H2.
  pose proof (for_each_inv index_wf commit_step commit_step_wf _ _ H2 E2) as H3.
  exact (for_each_inv index_wf event_step event_step_wf _ _ H3 Hrun).
Qed.

End IndexFacts.

(** ** The graph built from the index *)

Section GraphFacts.
Context {PS : PySet}.

Lemma link_all_pairs (repo : repo_id) (l : list string) (g : graph) :
  link_all repo l g = fold_left (link_pair repo) (pairs_of l) g.
Proof.
  revert g. induction l as [|u l IH]; intros g; simpl; [reflexivity|].
  rewrite fold_left_app, IH. f_equal.
  generalize g. clear. induction l as [|x l IHl]; intros g; simpl; auto.
Qed.

Lemma link_same (repo : repo_id) (g : graph) (u : string) : link repo g u u = g.
Proof. unfold link. destruct (eq_dec u u); congruence. Qed.

Lemma link_ok (repo : repo_id) (g : graph) (u1 u2 : string) :
  graph_ok g -> graph_ok (link repo g u1 u2).
Proof.
  intros (Hc & Hu & Hce & Hue). unfold link.
  destruct (eq_dec u1 u2) as [E|Hne]; [now repeat split|].
  unfold graph_ok, repos_at, collaborators_at; simpl. repeat split.
  - now apply dd_update_NoDup.
  - now apply dd_update_NoDup, dd_update_NoDup.
  - intros k Hk. destruct (eq_dec k (canonical u1 u2)) as [->|Hk'].
    + rewrite dd_get_update_same. now destruct (dd_get [] _ _).
    + rewrite dd_get_update_other by exact Hk'. apply Hce.
      apply dd_update_keys in Hk. tauto.
  - intros a Ha. destruct (eq_dec a u2) as [->|Ha2].
    + rewrite dd_get_update_same. apply set_add_nonempty.
    + rewrite dd_get_update_other by exact Ha2.
      destruct (eq_dec a u1) as [->|Ha1].
      * rewrite dd_get_update_same. apply set_add_nonempty.
      * rewrite dd_get_update_other by exact Ha1. apply Hue.
        apply dd_update_keys in Ha. destruct Ha as [?|Ha]; [congruence|].
        apply dd_update_keys in Ha. tauto.
Qed.

Lemma link_repos (repo : repo_id) (g : graph) (u1 u2 : string)
  (k : edge_key) (r : repo_id) :
  In r (repos_at k (link repo g u1 u2)) <->
  In r (repos_at k g) \/ (u1 <> u2 /\ r = repo /\ canonical u1 u2 = k).
Proof.
  unfold link, repos_at. destruct (eq_dec u1 u2) as [E|Hne]; [tauto|]. simpl.
  destruct (eq_dec k (canonical u1 u2)) as [->|Hk].
  - rewrite dd_get_update_same, in_app_iff. simpl. intuition congruence.
  - rewrite dd_get_update_other by exact Hk. intuition congruence.
Qed.

Lemma link_collaborators (repo : repo_id) (g : graph) (u1 u2 a b : string) :
  In b (collaborators_at a (link repo g u1 u2)) <->
  In b (collaborators_at a g) \/
  (u1 <> u2 /\ ((a = u1 /\ b = u2) \/ (a = u2 /\ b = u1))).
Proof.
  unfold link, collaborators_at. destruct (eq_dec u1 u2) as [E|Hne]; [tauto|].
  simpl. destruct (eq_dec a u2) as [->|Ha2].
  - rewrite dd_get_update_same, set_add_In.
    rewrite dd_get_update_other by congruence. intuition congruence.
  - rewrite dd_get_update_other by exact Ha2.
    destruct (eq_dec a u1) as [->|Ha1].
    + rewrite dd_get_update_same, set_add_In. intuition congruence.
    + rewrite dd_get_update_other by exact Ha1. intuition congruence.
Qed.

Lemma fold_link_ok (repo : repo_id) (ps : list (string * string)) (g : graph) :
  graph_ok g -> graph_ok (fold_left (link_pair repo) ps g).
Proof.
  revert g. induction ps as [|p ps IH]; intros g Hg; simpl; [exact Hg|].
  apply IH. now apply link_ok.
Qed.

Lemma fold_link_repos (repo : repo_id) (ps : list (string * string))
  (g : graph) (k : edge_key) (r : repo_id) :
  In r (repos_at k (fold_left (link_pair repo) ps g)) <->
  In r (repos_at k g) \/
  (r = repo /\ exists p, In p ps /\ fst p <> snd p /\ canonical_pair p = k).
Proof.
  revert g. induction ps as [|p ps IH]; intros g; simpl.
  - split; [tauto|]. intros [H|[_ [p [[] _]]]]. exact H.
  - rewrite IH. unfold link_pair. rewrite link_repos. split.
    + intros [[H|(Hne & -> & Hk)]|(-> & q & Hq & Hne & Hk)]; auto.
      * right. split; [reflexivity|]. exists p. auto.
      * right. split; [reflexivity|]. exists q. auto.
    + intros [H|(-> & q & [<-|Hq] & Hne & Hk)]; auto.
      right. split; [reflexivity|]. exists q. auto.
Qed.

Lemma fold_link_collaborators (repo : repo_id) (ps : list (string * string))
  (g : graph) (a b : string) :
  In b (collaborators_at a (fold_left (link_pair repo) ps g)) <->
  In b (collaborators_at a g) \/
  (exists p, In p ps /\ fst p <> snd p /\
     ((a = fst p /\ b = snd p) \/ (a = snd p /\ b = fst p))).
Proof.
  revert g. induction ps as [|p ps IH]; intros g; simpl.
  - split; [tauto|]. intros [H|[p [[] _]]]. exact H.
  - rewrite IH. unfold link_pair. rewrite link_collaborators. split.
    + intros [[H|(Hne & Hab)]|(q & Hq & Hne & Hab)]; auto.
      * right. exists p. auto.
      * right. exists q. auto.
    + intros [H|(q & [<-|Hq] & Hne & Hab)]; auto.
      right. exists q. auto.
Qed.

(** The keys [link_all] touches for one contributor list. *)
Lemma pairs_of_key (l : list string) (k : edge_key) :
  (exists p, In p (pairs_of l) /\ fst p <> snd p /\ canonical_pair p = k) <->
  String.ltb (fst k) (snd k) = true /\ In (fst k) l /\ In (snd k) l.
Proof.
  split.
  - intros ([a b] & Hin & Hne & <-). simpl in Hne. unfold canonical_pair. simpl.
    apply pairs_of_In in Hin. split; [now apply canonical_lt|].
    destruct (canonical_ends a b) as [[-> ->]|[-> ->]]; tauto.
  - destruct k as [a b]. simpl. intros (Hlt & Ha & Hb).
    pose proof (ltb_neq Hlt) as Hne.
    destruct (pairs_of_complete l Ha Hb Hne) as [Hin|Hin].
    + exists (a, b). repeat split; auto. now apply canonical_sorted.
    + exists (b, a). repeat split; auto. unfold canonical_pair. simpl.
      rewrite canonical_swap. now apply canonical_sorted.
Qed.

Lemma pairs_of_link (l : list string) (a b : string) :
  (exists p, In p (pairs_of l) /\ fst p <> snd p /\
     ((a = fst p /\ b = snd p) \/ (a = snd p /\ b = fst p))) <->
  a <> b /\ In a l /\ In b l.
Proof.
  split.
  - intros ([x y] & Hin & Hne & Hab). simpl in *. apply pairs_of_In in Hin.
    intuition congruence.
  - intros (Hne & Ha & Hb). destruct (pairs_of_complete l Ha Hb Hne) as [Hin|Hin].
    + exists (a, b). simpl. auto.
    + exists (b, a). simpl. auto.
Qed.

Lemma together_snoc (rc : index) (r : repo_id) (s : pyset) (a b : string)
  (r' : repo_id) :
  together (rc ++ [(r, s)]) a b r' <->
  together rc a b r' \/ (r' = r /\ In a s /\ In b s).
Proof.
  unfold together. split.
  - intros (s' & Hin & Ha & Hb). apply in_app_iff in Hin.
    destruct Hin as [Hin|[[= <- <-]|[]]]; [left; eauto|right; auto].
  - intros [(s' & Hin & Ha & Hb)|(-> & Ha & Hb)].
    + exists s'. rewrite in_app_iff. auto.
    + exists s. rewrite in_app_iff. simpl. auto.
Qed.

Lemma build_graph_snoc (rc : index) (r : repo_id) (s : pyset) :
  build_graph (rc ++ [(r, s)]) = link_all r s (build_graph rc).
Proof. unfold build_graph. now rewrite fold_left_app. Qed.

Theorem build_graph_spec (rc : index) : graph_spec rc (build_graph rc).
Proof.
  induction rc as [|[r s] rc IH] using rev_ind.
  - unfold graph_spec, graph_ok, repos_at, collaborators_at, together. simpl.
    repeat split; try constructor; try tauto.
    + intros [_ (s & [] & _)].
    + intros [_ (r & s & [] & _)].
  - destruct IH as (Hok & Hrep & Hcol).
    rewrite build_graph_snoc, link_all_pairs. split; [|split].
    + now apply fold_link_ok.
    + intros k r'.
      rewrite fold_link_repos, pairs_of_key, Hrep, together_snoc. tauto.
    + intros a b. rewrite fold_link_collaborators, pairs_of_link, Hcol. split.
      * intros [(Hne & r' & Hr')|(Hne & Ha & Hb)]; (split; [exact Hne|]).
        -- exists r'. apply together_snoc. now left.
        -- exists r. apply together_snoc. right. auto.
      * intros (Hne & r' & Hr'). apply together_snoc in Hr'.
        destruct Hr' as [Hr'|(-> & Ha & Hb)]; [left; eauto|right; auto].
Qed.

End GraphFacts.

(** ** The metrics never raise *)

Lemma py_truediv_ok (a b : Z) :
  b <> 0 -> py_truediv a b = Ok (Qred (inject_Z a / inject_Z b)).
Proof.
  intros Hb. unfold py_truediv. destruct (b =? 0) eqn:E; [|reflexivity].
  apply Z.eqb_eq in E. contradiction.
Qed.

Lemma traverse_map {A B : Type} (f : A -> outcome B) (g : A -> B) (l : list A) :
  (forall a, f a = Ok (g a)) -> traverse f l = Ok (map g l).
Proof.
  intros Hf. induction l as [|a l IH]; simpl; [reflexivity|].
  now rewrite Hf, IH.
Qed.

Lemma mean_ok {A : Type} (total : Z) (d : list A) :
  exists q,
    match d with [] => Ok 0%Q | _ => py_truediv total (len d) end = Ok q /\
    (len d = 0 -> q = 0%Q).
Proof.
  destruct d as [|x d].
  - exists 0%Q. split; reflexivity.
  - assert (Hn : len (x :: d) <> 0) by (unfold len; simpl; lia).
    rewrite (py_truediv_ok _ Hn). eexists. split; [reflexivity|].
    intros E. contradiction.
Qed.

Lemma values_tagged {K V : Type} (f : K -> V) (l : list K) :
  values (map (fun k => (k, f k)) l) = map f l.
Proof. unfold values. rewrite map_map. simpl. now rewrite map_ext with (g := f). Qed.

Section MetricsFacts.
Context {PS : PySet}.

Lemma repo_analysis_of_ok (edges : list Edge.t) (entry : repo_id * pyset) :
  repo_analysis_of edges entry = Ok (profile_of edges entry).
Proof.
  destruct entry as [r s]. unfold repo_analysis_of, profile_of. simpl.
  destruct (len s * (len s - 1) / 2 >? 0) eqn:E; simpl; [|reflexivity].
  rewrite py_truediv_ok; [reflexivity|].
  apply Z.gtb_lt in E. lia.
Qed.

Lemma hub_fold (rc : index) (uc : dict string pyset) (users : list string)
  (acc : dict string Hub.t) :
  NoDup users -> (forall u, In u users -> ~ In u (keys acc)) ->
  fold_left (hub_step rc uc) users acc =
  acc ++ map (fun u => (u, hub_of rc uc u)) (filter (in_many_repos rc) users).
Proof.
  revert acc. induction users as [|u users IH]; intros acc Hnd Hfresh; simpl.
  - now rewrite app_nil_r.
  - inversion Hnd as [|? ? Hu Hnd']; subst.
    unfold hub_step at 2. fold (in_many_repos rc u).
    destruct (in_many_repos rc u) eqn:E.
    + rewrite dict_set_fresh by (apply Hfresh; now left).
      rewrite IH; [|exact Hnd'|].
      * rewrite <- app_assoc. reflexivity.
      * intros v Hv. unfold keys. rewrite map_app, in_app_iff. simpl.
        intros [Hin|[<-|[]]]; [|contradiction].
        apply (Hfresh v); [now right|exact Hin].
    + apply IH; [exact Hnd'|]. intros v Hv. apply Hfresh. now right.
Qed.

(** What [analyse] returns, field by field. *)
Theorem analyse_inv (rc : index) (out : output) :
  analyse rc = Ok out ->
  let g := build_graph rc in
  let uc := user_collaborations g in
  collaboration_edges out =
    sort_desc Edge.weight (map edge_of (collaboration_repos g)) /\
  user_metrics out =
    sort_desc UserMetric.collaborator_count (map (user_metric_of rc) uc) /\
  repo_analysis out =
    sort_desc RepoAnalysis.contributor_count
      (map (profile_of (collaboration_edges out)) rc) /\
  (NoDup (keys uc) ->
   hub_list out =
     sort_desc Hub.repo_count
       (map (hub_of rc uc) (filter (in_many_repos rc) (keys uc)))) /\
  NetworkStats.total_users (network_stats out) = len uc /\
  NetworkStats.total_repositories (network_stats out) = len rc /\
  (len uc = 0 ->
   NetworkStats.avg_collaborators_per_user (network_stats out) = 0%Q) /\
  (len rc = 0 ->
   NetworkStats.avg_contributors_per_repo (network_stats out) = 0%Q).
Proof.
  intros H. unfold analyse in H. cbv zeta in H.
  rewrite (traverse_map _ _ _ (repo_analysis_of_ok _)) in H.
  cbn [bind] in H.
  destruct (mean_ok
    (sum (map (fun c : list string => len c)
            (values (user_collaborations (build_graph rc)))))
    (user_collaborations (build_graph rc))) as (q1 & E1 & Z1).
  rewrite E1 in H. cbn [bind] in H.
  destruct (mean_ok (sum (map (fun c : list string => len c) (values rc))) rc)
    as (q2 & E2 & Z2).
  rewrite E2 in H. cbn [bind] in H.
  injection H as <-. cbv zeta. cbn [collaboration_edges user_metrics
    repo_analysis network_stats NetworkStats.total_users
    NetworkStats.total_repositories NetworkStats.avg_collaborators_per_user
    NetworkStats.avg_contributors_per_repo].
  repeat split; auto.
  intros Hnd. unfold hub_list. cbn [cross_repo_list].
  rewrite hub_fold by (auto; intros u _ []). cbn [app].
  rewrite <- (values_tagged (hub_of rc (user_collaborations (build_graph rc)))).
  now destruct (map _ (filter _ _)).
Qed.

Theorem analyse_total (rc : index) : exists out, analyse rc = Ok out.
Proof.
  unfold analyse. cbv zeta.
  rewrite (traverse_map _ _ _ (repo_analysis_of_ok _)). cbn [bind].
  destruct (mean_ok
    (sum (map (fun c : list string => len c)
            (values (user_collaborations (build_graph rc)))))
    (user_collaborations (build_graph rc))) as (q1 & E1 & _).
  rewrite E1. cbn [bind].
  destruct (mean_ok (sum (map (fun c : list string => len c) (values rc))) rc)
    as (q2 & E2 & _).
  rewrite E2. cbn [bind]. eexists. reflexivity.
Qed.

End MetricsFacts.

(** ** From a run to its index and graph *)

Lemma mem_In {K : Type} `{EqDec K} (x : K) (l : list K) :
  mem x l = true <-> In x l.
Proof.
  unfold mem. destruct (in_dec eq_dec x l); split; auto; discriminate.
Qed.

Lemma dd_get_key {K V : Type} `{EqDec K} (k : K) (x : V) (d : dict K (list V)) :
  In x (dd_get [] k d) -> In k (keys d).
Proof.
  intros Hx. destruct (in_dec eq_dec k (keys d)) as [Hin|Hn]; [exact Hin|].
  rewrite (dd_get_missing [] _ _ Hn) in Hx. destruct Hx.
Qed.

Lemma together_sym (rc : index) (a b : string) (r : repo_id) :
  together rc a b r -> together rc b a r.
Proof. intros (s & Hin & Ha & Hb). exists s. auto. Qed.

Section RunFacts.
Context {PS : PySet}.

Lemma process_inv (issues prs commits events : list json) (out : output) :
  process_collaboration_networks issues prs commits events = Ok out ->
  exists rc, collect_contributors issues prs commits events = Ok rc /\
             index_wf rc /\ analyse rc = Ok out.
Proof.
  unfold process_collaboration_networks. intros H. inv_bind H.
  exists a. split; [reflexivity|]. split; [|exact H].
  now apply collect_contributors_wf in E.
Qed.

(** The edges of the output are the entries of [collaboration_repos]. *)
Lemma edge_In (rc : index) (out : output) (e : Edge.t) :
  analyse rc = Ok out ->
  (In e (collaboration_edges out) <->
   exists k, In k (keys (collaboration_repos (build_graph rc))) /\
             e = edge_of (k, repos_at k (build_graph rc))).
Proof.
  intros Hout. destruct (analyse_inv _ Hout) as (-> & _).
  destruct (build_graph_spec rc) as ((Hc & _) & _).
  rewrite sort_desc_In, in_map_iff. split.
  - intros ([k repos] & <- & Hin). exists k. split.
    + apply (in_map fst) in Hin. exact Hin.
    + unfold repos_at. now rewrite (dd_get_In [] _ _ _ Hc Hin).
  - intros (k & Hk & ->). exists (k, repos_at k (build_graph rc)).
    split; [reflexivity|]. now apply dd_get_entry.
Qed.

Lemma edge_key_lt (rc : index) (k : edge_key) :
  In k (keys (collaboration_repos (build_graph rc))) ->
  String.ltb (fst k) (snd k) = true /\
  exists r, together rc (fst k) (snd k) r.
Proof.
  intros Hk. destruct (build_graph_spec rc) as ((_ & _ & Hne & _) & Hrep & _).
  specialize (Hne k Hk).
  destruct (repos_at k (build_graph rc)) as [|r l] eqn:E; [congruence|].
  assert (Hr : In r (repos_at k (build_graph rc))) by (rewrite E; now left).
  apply Hrep in Hr. destruct Hr as [Hlt Ht]. eauto.
Qed.

Lemma edge_key_present (rc : index) (a b : string) (r : repo_id) :
  String.ltb a b = true -> together rc a b r ->
  In (a, b) (keys (collaboration_repos (build_graph rc))).
Proof.
  intros Hlt Ht. destruct (build_graph_spec rc) as (_ & Hrep & _).
  eapply dd_get_key. apply Hrep. simpl. eauto.
Qed.

(** Joined logins are those together in some repository. *)
Lemma joined_together (rc : index) (out : output) (a b : string) :
  analyse rc = Ok out ->
  (joined out a b <-> a <> b /\ exists r, together rc a b r).
Proof.
  intros Hout. unfold joined. split.
  - intros (e & He & Hab). apply (edge_In rc _ Hout) in He.
    destruct He as ([x y] & Hk & ->). apply edge_key_lt in Hk.
    simpl in *. destruct Hk as (Hlt & r & Ht). apply ltb_neq in Hlt.
    destruct Hab as [[-> ->]|[-> ->]]; split; auto.
    + eauto.
    + exists r. now apply together_sym.
  - intros (Hne & r & Ht). destruct (ltb_total Hne) as [Hlt|Hlt].
    + exists (edge_of ((a, b), repos_at (a, b) (build_graph rc))). split.
      * apply (edge_In rc _ Hout). exists (a, b). split; [|reflexivity].
        now apply edge_key_present with r.
      * left. split; reflexivity.
    + exists (edge_of ((b, a), repos_at (b, a) (build_graph rc))). split.
      * apply (edge_In rc _ Hout). exists (b, a). split; [|reflexivity].
        apply edge_key_present with r; [exact Hlt|now apply together_sym].
      * right. split; reflexivity.
Qed.

Lemma collaborates_together (rc : index) (out : output) (a b : string) :
  analyse rc = Ok out ->
  (collaborates out a b <-> a <> b /\ exists r, together rc a b r).
Proof.
  intros Hout. destruct (analyse_inv _ Hout) as (_ & Hm & _).
  destruct (build_graph_spec rc) as ((_ & Hu & _) & _ & Hcol).
  rewrite <- Hcol. unfold collaborates. rewrite Hm. split.
  - intros (m & Hin & <- & Hb). apply sort_desc_In, in_map_iff in Hin.
    destruct Hin as ([u s] & <- & Hin). simpl in *.
    unfold collaborators_at. now rewrite (dd_get_In [] _ _ _ Hu Hin).
  - intros Hb. assert (Hk := Hb). apply dd_get_key in Hk.
    exists (user_metric_of rc (a, collaborators_at a (build_graph rc))).
    split; [|split; [reflexivity|exact Hb]].
    apply sort_desc_In, in_map. now apply dd_get_entry.
Qed.

(** Every index entry has its profile in the output, and conversely. *)
Lemma profile_In (rc : index) (out : output) (ra : RepoAnalysis.t) :
  analyse rc = Ok out ->
  (In ra (repo_analysis out) <->
   exists entry, In entry rc /\ ra = profile_of (collaboration_edges out) entry).
Proof.
  intros Hout. destruct (analyse_inv _ Hout) as (_ & _ & -> & _).
  rewrite sort_desc_In, in_map_iff. split; intros (x & H1 & H2); eauto.
Qed.

End RunFacts.

(** ** The claims about edges and collaborators *)

Section EdgeClaims.
Context {PS : PySet}.

(** C5. No edge of the output is a self-loop, every edge is keyed with
    its smaller login first, every pair of logins is keyed at most once,
    and no edge is the inverse of another. *)
Theorem edges_canonical (issues prs commits events : list json) (out : output) :
  process_collaboration_networks issues prs commits events = Ok out ->
  (forall e, In e (collaboration_edges out) ->
     Edge.source e <> Edge.target e /\
     String.ltb (Edge.source e) (Edge.target e) = true) /\
  NoDup (map edge_pair (collaboration_edges out)) /\
  (forall e1 e2,
     In e1 (collaboration_edges out) -> In e2 (collaboration_edges out) ->
     ~ (Edge.source e1 = Edge.target e2 /\ Edge.target e1 = Edge.source e2)).
Proof.
  intros Hrun. destruct (process_inv _ _ _ _ Hrun) as (rc & _ & _ & Hout).
  assert (Hlt : forall e, In e (collaboration_edges out) ->
                String.ltb (Edge.source e) (Edge.target e) = true).
  { intros e He. apply (edge_In rc _ Hout) in He.
    destruct He as ([a b] & Hk & ->). now apply edge_key_lt in Hk. }
  split; [|split].
  - intros e He. split; [|now apply Hlt]. apply ltb_neq. now apply Hlt.
  - destruct (analyse_inv _ Hout) as (-> & _).
    destruct (build_graph_spec rc) as ((Hc & _) & _).
    apply (Permutation_NoDup (l := keys (collaboration_repos (build_graph rc))));
      [|exact Hc].
    symmetry. rewrite (Permutation_map edge_pair (sort_desc_perm _ _)).
    rewrite map_map. unfold keys.
    erewrite map_ext; [reflexivity|]. now intros [[a b] v].
  - intros e1 e2 H1 H2 [E1 E2]. apply Hlt in H1. apply Hlt in H2.
    rewrite E1, E2 in H1. rewrite (ltb_asym _ _ H2) in H1. discriminate.
Qed.

(** C6. The weight of an edge is the length of its repository list, and
    both ends of the edge are contributors of every repository listed. *)
Theorem weight_consistent (issues prs commits events : list json)
  (out : output) :
  process_collaboration_networks issues prs commits events = Ok out ->
  forall e, In e (collaboration_edges out) ->
    Edge.weight e = len (Edge.repos e) /\
    forall r, In r (Edge.repos e) ->
      exists ra, In ra (repo_analysis out) /\
        RepoAnalysis.repo ra = r /\
        In (Edge.source e) (RepoAnalysis.contributors ra) /\
        In (Edge.target e) (RepoAnalysis.contributors ra).
Proof.
  intros Hrun e He.
  destruct (process_inv _ _ _ _ Hrun) as (rc & _ & _ & Hout).
  apply (edge_In rc _ Hout) in He. destruct He as ([a b] & Hk & ->).
  simpl. split; [reflexivity|]. intros r Hr.
  destruct (build_graph_spec rc) as (_ & Hrep & _).
  apply Hrep in Hr. destruct Hr as (_ & s & Hin & Ha & Hb). simpl in *.
  exists (profile_of (collaboration_edges out) (r, s)).
  split; [|now repeat split].
  apply (profile_In rc _ Hout). now exists (r, s).
Qed.

(** C7. The collaborator relation is symmetric, and two logins
    collaborate exactly when an edge joins them. *)
Theorem collaborators_symmetric (issues prs commits events : list json)
  (out : output) :
  process_collaboration_networks issues prs commits events = Ok out ->
  forall a b,
    (collaborates out a b <-> collaborates out b a) /\
    (collaborates out a b <-> joined out a b).
Proof.
  intros Hrun a b.
  destruct (process_inv _ _ _ _ Hrun) as (rc & _ & _ & Hout).
  rewrite !(collaborates_together rc _ _ Hout), (joined_together rc _ _ Hout).
  split; [|tauto]. split; intros (Hne & r & Ht); (split; [congruence|]);
    exists r; now apply together_sym.
Qed.

End EdgeClaims.

Lemma edges_canonical_witness :
  exists out,
    process_collaboration_networks (PS := insertion_order)
      hub_issues hub_prs [] hub_events = Ok out /\
    ((forall e, In e (collaboration_edges out) ->
        Edge.source e <> Edge.target e /\
        String.ltb (Edge.source e) (Edge.target e) = true) /\
     NoDup (map edge_pair (collaboration_edges out)) /\
     (forall e1 e2,
        In e1 (collaboration_edges out) -> In e2 (collaboration_edges out) ->
        ~ (Edge.source e1 = Edge.target e2 /\ Edge.target e1 = Edge.source e2))).
Proof.
  eexists. split; [vm_compute; reflexivity|].
  apply (edges_canonical (PS := insertion_order) hub_issues hub_prs []
           hub_events).
  vm_compute. reflexivity.
Defined.

Lemma weight_consistent_witness :
  exists out,
    process_collaboration_networks (PS := insertion_order)
      hub_issues hub_prs [] hub_events = Ok out /\
    forall e, In e (collaboration_edges out) ->
      Edge.weight e = len (Edge.repos e) /\
      forall r, In r (Edge.repos e) ->
        exists ra, In ra (repo_analysis out) /\
          RepoAnalysis.repo ra = r /\
          In (Edge.source e) (RepoAnalysis.contributors ra) /\
          In (Edge.target e) (RepoAnalysis.contributors ra).
Proof.
  eexists. split; [vm_compute; reflexivity|].
  apply (weight_consistent (PS := insertion_order) hub_issues hub_prs []
           hub_events).
  vm_compute. reflexivity.
Defined.

Lemma collaborators_symmetric_witness :
  exists out,
    process_collaboration_networks (PS := insertion_order)
      hub_issues hub_prs [] hub_events = Ok out /\
    forall a b,
      (collaborates out a b <-> collaborates out b a) /\
      (collaborates out a b <-> joined out a b).
Proof.
  eexists. split; [vm_compute; reflexivity|].
  apply (collaborators_symmetric (PS := insertion_order) hub_issues hub_prs []
           hub_events).
  vm_compute. reflexivity.
Defined.

(** ** No division fault *)

Lemma bind_no_div {A B : Type} (m : outcome A) (k : A -> outcome B) :
  no_div_fault m -> (forall a, no_div_fault (k a)) -> no_div_fault (bind m k).
Proof.
  unfold no_div_fault. intros Hm Hk. destruct m as [a|e|]; simpl.
  - apply Hk.
  - intros H. apply Hm. now inversion H.
  - discriminate.
Qed.

Lemma for_each_no_div {S A : Type} (body : S -> A -> outcome S) (l : list A) :
  (forall s a, no_div_fault (body s a)) ->
  forall s, no_div_fault (for_each body l s).
Proof.
  intros Hb. induction l as [|a l IH]; intros s; simpl.
  - discriminate.
  - apply bind_no_div; auto.
Qed.

Lemma py_get_no_div (o : json) (k : string) (default : json) :
  no_div_fault (py_get o k default).
Proof. destruct o; discriminate. Qed.

Lemma py_item_no_div (o : json) (k : string) : no_div_fault (py_item o k).
Proof. destruct o; try discriminate. simpl. destruct (lookup k d); discriminate. Qed.

Lemma py_contains_no_div (k : string) (o : json) :
  no_div_fault (py_contains k o).
Proof. destruct o; discriminate. Qed.

Lemma bucket_key_no_div (repo : json) : no_div_fault (bucket_key repo).
Proof. destruct repo; discriminate. Qed.

Lemma member_key_no_div (login : json) : no_div_fault (member_key login).
Proof. destruct login; discriminate. Qed.

Lemma Ok_no_div {A : Type} (a : A) : no_div_fault (Ok a).
Proof. discriminate. Qed.

Create HintDb no_div.

#[local] Hint Resolve py_get_no_div py_item_no_div py_contains_no_div
  bucket_key_no_div member_key_no_div Ok_no_div : no_div.

Ltac no_div :=
  repeat first
    [ apply bind_no_div; [|intros ?]
    | match goal with
      | |- no_div_fault (if ?c then _ else _) => destruct c
      | |- no_div_fault (match ?l with [] => _ | _ :: _ => _ end) => destruct l
      end
    | solve [auto with no_div] ].

Lemma Qred_self (n : Z) : 0 < n -> Qred (inject_Z n / inject_Z n) = 1%Q.
Proof.
  intros Hn. rewrite (Qred_complete _ 1%Q); [reflexivity|].
  apply Qmult_inv_r. unfold Qeq. simpl. lia.
Qed.

Lemma filter_map_length {A B : Type} (f : B -> bool) (g : A -> B) (l : list A) :
  length (filter f (map g l)) = length (filter (fun x => f (g x)) l).
Proof.
  induction l as [|a l IH]; simpl; [reflexivity|].
  destruct (f (g a)); simpl; congruence.
Qed.

Lemma NoDup_map_filter {A B : Type} (g : A -> B) (f : A -> bool) (l : list A) :
  NoDup (map g l) -> NoDup (map g (filter f l)).
Proof.
  induction l as [|a l IH]; simpl; intros Hnd; [constructor|].
  inversion Hnd as [|? ? Hn Hnd']; subst.
  destruct (f a); simpl; auto. constructor; auto.
  rewrite in_map_iff in *. intros (x & Hx & Hin). apply Hn.
  exists x. split; [exact Hx|]. apply filter_In in Hin. tauto.
Qed.

Lemma keys_unique {K V : Type} (d : list (K * V)) (k : K) (v v' : V) :
  NoDup (map fst d) -> In (k, v) d -> In (k, v') d -> v = v'.
Proof.
  induction d as [|[k0 v0] d IH]; simpl; [tauto|].
  intros Hnd. inversion Hnd as [|? ? Hn Hnd']; subst.
  intros [H1|H1] [H2|H2].
  - congruence.
  - exfalso. apply Hn. inversion H1; subst.
    apply (in_map fst) in H2. exact H2.
  - exfalso. apply Hn. inversion H2; subst.
    apply (in_map fst) in H1. exact H1.
  - now apply IH.
Qed.

Section MetricsClaims.
Context {PS : PySet}.

Lemma issue_step_no_div (rc : index) (issue : json) :
  no_div_fault (issue_step rc issue).
Proof. unfold issue_step, get_get_login, get_and_login, py_and, add_login. no_div. Qed.

Lemma pr_step_no_div (rc : index) (pr : json) : no_div_fault (pr_step rc pr).
Proof. unfold pr_step, get_get_login, add_login. no_div. Qed.

Lemma commit_step_no_div (rc : index) (commit : json) :
  no_div_fault (commit_step rc commit).
Proof. unfold commit_step, get_and_login, py_and, add_login. no_div. Qed.

Lemma event_step_no_div (rc : index) (event : json) :
  no_div_fault (event_step rc event).
Proof. unfold event_step, get_and_login, py_and, add_login. no_div. Qed.

Lemma collect_no_div (issues prs commits events : list json) :
  no_div_fault (collect_contributors issues prs commits events).
Proof.
  unfold collect_contributors, skip_metadata.
  apply bind_no_div; [|intros _].
  { apply for_each_no_div. intros s l. no_div. }
  apply bind_no_div;
    [apply for_each_no_div; exact issue_step_no_div|intros rc1].
  apply bind_no_div; [apply for_each_no_div; exact pr_step_no_div|intros rc2].
  apply bind_no_div;
    [apply for_each_no_div; exact commit_step_no_div|intros rc3].
  apply for_each_no_div. exact event_step_no_div.
Qed.

(** The edges that go through a repository are the pairs of its
    contributors. *)
Lemma edges_through (rc : index) (out : output) (r : repo_id) (s : pyset) :
  index_wf rc -> analyse rc = Ok out -> In (r, s) rc ->
  len (filter (fun e => mem r (Edge.repos e)) (collaboration_edges out)) =
  len (pairs_of s).
Proof.
  intros [Hkeys Hsets] Hout Hin.
  destruct (analyse_inv _ Hout) as (-> & _).
  destruct (build_graph_spec rc) as ((Hc & _) & Hrep & _).
  assert (Hs : NoDup s).
  { rewrite Forall_forall in Hsets. exact (Hsets _ Hin). }
  unfold len. f_equal.
  rewrite (filter_length_perm _ (sort_desc_perm _ _)), filter_map_length.
  rewrite <- (length_map fst), <- (length_map canonical_pair (pairs_of s)).
  apply Permutation_length, NoDup_Permutation.
  - now apply NoDup_map_filter.
  - now apply canonical_pairs_NoDup.
  - intros k. rewrite in_map_iff. split.
    + intros ([k' v] & <- & Hf). apply filter_In in Hf. destruct Hf as [Hkv Hm].
      assert (Hr : In r (repos_at k' (build_graph rc))).
      { unfold repos_at. rewrite (dd_get_In [] _ _ _ Hc Hkv).
        destruct k'. simpl in Hm. now apply mem_In in Hm. }
      apply Hrep in Hr. destruct Hr as (Hlt & s' & Hin' & Ha & Hb).
      rewrite (keys_unique _ _ _ _ Hkeys Hin' Hin) in *. simpl.
      assert (Hp : exists p, In p (pairs_of s) /\ fst p <> snd p /\
                             canonical_pair p = k') by (apply pairs_of_key; auto).
      destruct Hp as (p & Hp & _ & E). apply in_map_iff. eauto.
    + intros Hk. apply in_map_iff in Hk. destruct Hk as ([a b] & <- & Hp).
      assert (Hne : a <> b) by exact (pairs_of_neq Hs Hp).
      assert (Hkey : String.ltb (fst (canonical_pair (a, b)))
                       (snd (canonical_pair (a, b))) = true /\
                     In (fst (canonical_pair (a, b))) s /\
                     In (snd (canonical_pair (a, b))) s).
      { apply pairs_of_key. exists (a, b). auto. }
      destruct Hkey as (Hlt & Ha & Hb).
      assert (Hr : In r (repos_at (canonical_pair (a, b)) (build_graph rc))).
      { apply Hrep. split; [exact Hlt|]. exists s. auto. }
      exists (canonical_pair (a, b), repos_at (canonical_pair (a, b)) (build_graph rc)).
      split; [reflexivity|]. apply filter_In. split.
      * apply dd_get_entry. eapply dd_get_key. exact Hr.
      * destruct (canonical_pair (a, b)). simpl. now apply mem_In.
Qed.

(** C8. No run ends in a division fault; a repository with at most one
    contributor has density 0; an average over no user, or over no
    repository, is 0. *)
Theorem divisions_guarded (issues prs commits events : list json) :
  no_div_fault (process_collaboration_networks issues prs commits events) /\
  (forall rc, exists out, analyse rc = Ok out) /\
  forall out,
    process_collaboration_networks issues prs commits events = Ok out ->
    (forall ra, In ra (repo_analysis out) ->
       RepoAnalysis.contributor_count ra <= 1 ->
       RepoAnalysis.collaboration_density ra = 0%Q) /\
    (NetworkStats.total_users (network_stats out) = 0 ->
     NetworkStats.avg_collaborators_per_user (network_stats out) = 0%Q) /\
    (NetworkStats.total_repositories (network_stats out) = 0 ->
     NetworkStats.avg_contributors_per_repo (network_stats out) = 0%Q).
Proof.
  split; [|split].
  - unfold process_collaboration_networks.
    apply bind_no_div; [apply collect_no_div|].
    intros rc. destruct (analyse_total rc) as [out ->]. discriminate.
  - exact analyse_total.
  - intros out Hrun.
    destruct (process_inv _ _ _ _ Hrun) as (rc & _ & _ & Hout).
    destruct (analyse_inv _ Hout) as (_ & _ & _ & _ & Hu & Hr & Hau & Har).
    split; [|split].
    + intros ra Hra Hcount. apply (profile_In rc _ Hout) in Hra.
      destruct Hra as ([r s] & _ & ->). unfold profile_of in *. simpl in *.
      assert (E : len s * (len s - 1) / 2 = 0).
      { assert (H0 : 0 <= len s) by (unfold len; lia).
        assert (Hs : len s = 0 \/ len s = 1) by lia.
        destruct Hs as [-> | ->]; reflexivity. }
      rewrite E. reflexivity.
    + rewrite Hu. exact Hau.
    + rewrite Hr. exact Har.
Qed.

(** C10. Every repository of the index has its profile published, with
    its contributors.  Each pair of them has an edge whose repository list
    holds the repository, and the edges through the repository are as many
    as these pairs: actual equals potential collaborations, and density is
    1 with two contributors or more and 0 otherwise. *)
Theorem density_is_one (issues prs commits events : list json) (out : output) :
  process_collaboration_networks issues prs commits events = Ok out ->
  exists rc,
    collect_contributors issues prs commits events = Ok rc /\
    (forall ra, In ra (repo_analysis out) ->
       In (RepoAnalysis.repo ra, RepoAnalysis.contributors ra) rc /\
       RepoAnalysis.actual_collaborations ra =
         RepoAnalysis.potential_collaborations ra /\
       (2 <= RepoAnalysis.contributor_count ra ->
        RepoAnalysis.collaboration_density ra = 1%Q) /\
       (RepoAnalysis.contributor_count ra < 2 ->
        RepoAnalysis.collaboration_density ra = 0%Q)) /\
    forall r s, In (r, s) rc ->
      (forall a b, In a s -> In b s -> a <> b ->
         exists e, In e (collaboration_edges out) /\ In r (Edge.repos e) /\
           ((Edge.source e = a /\ Edge.target e = b) \/
            (Edge.source e = b /\ Edge.target e = a)) /\
           forall e', In e' (collaboration_edges out) ->
             ((Edge.source e' = a /\ Edge.target e' = b) \/
              (Edge.source e' = b /\ Edge.target e' = a)) -> e' = e) /\
      len (filter (fun e => mem r (Edge.repos e)) (collaboration_edges out)) =
        len s * (len s - 1) / 2 /\
      exists ra, In ra (repo_analysis out) /\
        RepoAnalysis.repo ra = r /\
        RepoAnalysis.contributors ra = s /\
        RepoAnalysis.contributor_count ra = len s /\
        RepoAnalysis.potential_collaborations ra = len s * (len s - 1) / 2 /\
        RepoAnalysis.actual_collaborations ra = len s * (len s - 1) / 2 /\
        (2 <= len s -> RepoAnalysis.collaboration_density ra = 1%Q) /\
        (len s < 2 -> RepoAnalysis.collaboration_density ra = 0%Q).
Proof.
  intros Hrun.
  destruct (process_inv _ _ _ _ Hrun) as (rc & Hrc & Hwf & Hout).
  exists rc. split; [exact Hrc|].
  assert (Hprof : forall r s, In (r, s) rc ->
            let ra := profile_of (collaboration_edges out) (r, s) in
            RepoAnalysis.actual_collaborations ra = len s * (len s - 1) / 2 /\
            (2 <= len s -> RepoAnalysis.collaboration_density ra = 1%Q) /\
            (len s < 2 -> RepoAnalysis.collaboration_density ra = 0%Q)).
  { intros r s Hin. unfold profile_of. simpl.
    rewrite (@edges_through rc out r s Hwf Hout Hin), potential_is_pairs.
    split; [reflexivity|]. split; intros Hcount.
    - assert (Hpos : 0 < len (pairs_of s)).
      { pose proof (pairs_of_length s) as Hl. unfold len in *. nia. }
      destruct (len (pairs_of s) >? 0) eqn:E.
      + now apply Qred_self.
      + rewrite Z.gtb_ltb, Z.ltb_ge in E. lia.
    - assert (Hz : len (pairs_of s) = 0).
      { pose proof (pairs_of_length s) as Hl. unfold len in *. nia. }
      rewrite Hz. reflexivity. }
  split.
  - intros ra Hra. apply (profile_In rc _ Hout) in Hra.
    destruct Hra as ([r s] & Hin & ->).
    destruct (Hprof r s Hin) as (Hact & H1 & H0).
    split; [exact Hin|]. split; [exact Hact|]. split; [exact H1|exact H0].
  - intros r s Hin. split; [|split].
    + intros a b Ha Hb Hne.
      destruct (build_graph_spec rc) as (_ & Hrep & _).
      assert (Hedge : forall x y, String.ltb x y = true -> In x s -> In y s ->
                exists e, In e (collaboration_edges out) /\
                  In r (Edge.repos e) /\
                  (Edge.source e = x /\ Edge.target e = y) /\
                  forall e', In e' (collaboration_edges out) ->
                    ((Edge.source e' = x /\ Edge.target e' = y) \/
                     (Edge.source e' = y /\ Edge.target e' = x)) -> e' = e).
      { intros x y Hlt Hx Hy.
        assert (Ht : together rc x y r) by (exists s; auto).
        exists (edge_of ((x, y), repos_at (x, y) (build_graph rc))).
        split; [|split; [|split; [split; reflexivity|]]].
        - apply (edge_In rc _ Hout). exists (x, y). split; [|reflexivity].
          now apply edge_key_present with r.
        - simpl. apply Hrep. simpl. auto.
        - intros e' He' Hj. apply (edge_In rc _ Hout) in He'.
          destruct He' as ([x' y'] & Hk' & ->).
          apply edge_key_lt in Hk'. destruct Hk' as [Hlt' _].
          simpl in Hlt', Hj. destruct Hj as [[-> ->]|[-> ->]]; [reflexivity|].
          apply ltb_asym in Hlt. congruence. }
      destruct (ltb_total Hne) as [Hlt|Hlt].
      * destruct (Hedge a b Hlt Ha Hb) as (e & He & Hr & Hs & Huniq).
        exists e. auto.
      * destruct (Hedge b a Hlt Hb Ha) as (e & He & Hr & Hs & Huniq).
        exists e. repeat split; auto. intros e' He' Hj. apply Huniq; tauto.
    + rewrite (@edges_through rc out r s Hwf Hout Hin).
      symmetry. apply potential_is_pairs.
    + exists (profile_of (collaboration_edges out) (r, s)).
      destruct (Hprof r s Hin) as (Hact & H1 & H0).
      split; [apply (profile_In rc _ Hout); eauto|].
      repeat split; auto.
Qed.

End MetricsClaims.

Lemma divisions_guarded_witness :
  exists out,
    process_collaboration_networks (PS := insertion_order)
      [record "R1" "user" "alice"] [] [] [] = Ok out /\
    (forall ra, In ra (repo_analysis out) ->
       RepoAnalysis.contributor_count ra <= 1 ->
       RepoAnalysis.collaboration_density ra = 0%Q) /\
    (NetworkStats.total_users (network_stats out) = 0 ->
     NetworkStats.avg_collaborators_per_user (network_stats out) = 0%Q) /\
    (NetworkStats.total_repositories (network_stats out) = 0 ->
     NetworkStats.avg_contributors_per_repo (network_stats out) = 0%Q).
Proof.
  eexists. split; [vm_compute; reflexivity|].
  apply (proj2 (proj2 (divisions_guarded (PS := insertion_order)
                         [record "R1" "user" "alice"] [] [] []))).
  vm_compute. reflexivity.
Defined.

Lemma density_is_one_witness :
  exists out,
    process_collaboration_networks (PS := insertion_order)
      hub_issues hub_prs [] hub_events = Ok out /\
    exists rc,
      collect_contributors (PS := insertion_order)
        hub_issues hub_prs [] hub_events = Ok rc /\
      (forall ra, In ra (repo_analysis out) ->
         In (RepoAnalysis.repo ra, RepoAnalysis.contributors ra) rc /\
         RepoAnalysis.actual_collaborations ra =
           RepoAnalysis.potential_collaborations ra /\
         (2 <= RepoAnalysis.contributor_count ra ->
          RepoAnalysis.collaboration_density ra = 1%Q) /\
         (RepoAnalysis.contributor_count ra < 2 ->
          RepoAnalysis.collaboration_density ra = 0%Q)) /\
      forall r s, In (r, s) rc ->
        (forall a b, In a s -> In b s -> a <> b ->
           exists e, In e (collaboration_edges out) /\ In r (Edge.repos e) /\
             ((Edge.source e = a /\ Edge.target e = b) \/
              (Edge.source e = b /\ Edge.target e = a)) /\
             forall e', In e' (collaboration_edges out) ->
               ((Edge.source e' = a /\ Edge.target e' = b) \/
                (Edge.source e' = b /\ Edge.target e' = a)) -> e' = e) /\
        len (filter (fun e => mem r (Edge.repos e)) (collaboration_edges out)) =
          len s * (len s - 1) / 2 /\
        exists ra, In ra (repo_analysis out) /\
          RepoAnalysis.repo ra = r /\
          RepoAnalysis.contributors ra = s /\
          RepoAnalysis.contributor_count ra = len s /\
          RepoAnalysis.potential_collaborations ra = len s * (len s - 1) / 2 /\
          RepoAnalysis.actual_collaborations ra = len s * (len s - 1) / 2 /\
          (2 <= len s -> RepoAnalysis.collaboration_density ra = 1%Q) /\
          (len s < 2 -> RepoAnalysis.collaboration_density ra = 0%Q).
Proof.
  eexists. split; [vm_compute; reflexivity|].
  apply (density_is_one (PS := insertion_order) hub_issues hub_prs []
           hub_events).
  vm_compute. reflexivity.
Defined.

(** ** Records to pairs *)







Section RecordClaims.
Context {PS : PySet}.









(** C4. An issue, or a pull request, whose [user] is present and null
    makes the run stop with an AttributeError, whatever the index holds and
    whatever records follow; the same null under [assignee], [author] or
    [actor] is passed over. *)
Theorem null_reporter_raises (rc : index) (rest : list json) :
  issue_step rc (null_actor "user") = Raise AttributeError /\
  pr_step rc (null_actor "user") = Raise AttributeError /\
  process_collaboration_networks (null_actor "user" :: rest) [] [] [] =
    Raise AttributeError /\
  process_collaboration_networks [] (null_actor "user" :: rest) [] [] =
    Raise AttributeError /\
  issue_step rc (null_actor "assignee") = Ok rc /\
  commit_step rc (null_actor "author") = Ok rc /\
  event_step rc (null_actor "actor") = Ok rc.
Proof. repeat split; reflexivity. Qed.

End RecordClaims.

(** C3. The slice of line 23 is lost: a leading entry with a [_metadata]
    key is read as the first issue.  With it the index holds alice beside
    bob and the run publishes the edge alice-bob; without it bob is alone
    and no edge is published. *)
Theorem metadata_entry_counted :
  collect_contributors (PS := insertion_order) metadata_issues [] [] [] =
    Ok [(Some "R1", ["alice"; "bob"])] /\
  collect_contributors (PS := insertion_order) (tl metadata_issues) [] [] [] =
    Ok [(Some "R1", ["bob"])] /\
  (exists out,
     process_collaboration_networks (PS := insertion_order)
       metadata_issues [] [] [] = Ok out /\
     map edge_pair (collaboration_edges out) = [("alice", "bob")]) /\
  (exists out,
     process_collaboration_networks (PS := insertion_order)
       (tl metadata_issues) [] [] [] = Ok out /\
     collaboration_edges out = []).
Proof.
  split; [reflexivity|]. split; [reflexivity|].
  split; eexists; (split; [vm_compute; reflexivity|]); reflexivity.
Qed.



(** ** Hubs and the order of the edges *)

Lemma filter_perm {A : Type} (f : A -> bool) (l l' : list A) :
  Permutation l l' -> Permutation (filter f l) (filter f l').
Proof.
  induction 1 as [|x l l' _ IH|x y l|l l' l'' _ IH1 _ IH2]; simpl.
  - constructor.
  - destruct (f x); auto.
  - destruct (f x), (f y); auto. apply perm_swap.
  - now transitivity (filter f l').
Qed.

Section OrderClaims.
Context {PS : PySet}.

(** The repositories of the profiles that list [login] are the ones the
    hub loop finds for it. *)
Lemma contributed_repos (rc : index) (out : output) (login : string) :
  analyse rc = Ok out ->
  Permutation (map RepoAnalysis.repo (contributed out login))
    (repos_contributed rc login).
Proof.
  intros Hout. destruct (analyse_inv _ Hout) as (_ & _ & Hra & _).
  unfold contributed. rewrite Hra.
  transitivity
    (map RepoAnalysis.repo
       (filter (fun ra => mem login (RepoAnalysis.contributors ra))
          (map (profile_of (collaboration_edges out)) rc))).
  - apply Permutation_map, filter_perm, sort_desc_perm.
  - unfold repos_contributed. clear.
    induction rc as [|[r s] rc IH]; simpl; [constructor|].
    destruct (mem login s); simpl; auto.
Qed.

(** The keys of [user_collaborations] are the endpoints of the edges. *)
Lemma key_joined (rc : index) (out : output) (a : string) :
  analyse rc = Ok out ->
  (In a (keys (user_collaborations (build_graph rc))) <->
   exists b, joined out a b).
Proof.
  intros Hout.
  destruct (build_graph_spec rc) as ((_ & _ & _ & Hne) & _ & Hcol). split.
  - intros Hk. specialize (Hne a Hk).
    destruct (collaborators_at a (build_graph rc)) as [|b l] eqn:E;
      [congruence|].
    exists b. apply (joined_together rc a b Hout). apply Hcol.
    rewrite E. now left.
  - intros (b & Hj). apply (joined_together rc a b Hout), Hcol in Hj.
    eapply dd_get_key. exact Hj.
Qed.

Lemma hub_In (rc : index) (out : output) (h : Hub.t) :
  analyse rc = Ok out ->
  let uc := user_collaborations (build_graph rc) in
  (In h (hub_list out) <->
   exists user, In user (keys uc) /\ in_many_repos rc user = true /\
                h = hub_of rc uc user).
Proof.
  intros Hout uc.
  destruct (analyse_inv _ Hout) as (_ & _ & _ & Hh & _).
  destruct (build_graph_spec rc) as ((_ & Hu & _) & _).
  rewrite (Hh Hu), sort_desc_In, in_map_iff. fold uc. split.
  - intros (u & <- & Hin). apply filter_In in Hin. exists u. tauto.
  - intros (u & Hk & Hm & ->). exists u. split; [reflexivity|].
    apply filter_In. tauto.
Qed.

(** C1, as the code has it. A login is in the hub list exactly when it is
    an endpoint of some edge and more than one repository lists it among
    its contributors.  The entry holds these repositories, their number,
    and the collaborator count of the login's metrics; a login has one
    entry at most, and the list is in decreasing [repo_count]. *)
Theorem hubs_are_linked (issues prs commits events : list json) (out : output) :
  process_collaboration_networks issues prs commits events = Ok out ->
  (forall login,
     is_hub out login <->
     (exists other, joined out login other) /\
     1 < len (contributed out login)) /\
  (forall h, In h (hub_list out) ->
     Permutation (Hub.repositories h)
       (map RepoAnalysis.repo (contributed out (Hub.user h))) /\
     Hub.repo_count h = len (Hub.repositories h) /\
     exists m, In m (user_metrics out) /\
               UserMetric.user m = Hub.user h /\
               Hub.total_collaborators h = UserMetric.collaborator_count m) /\
  NoDup (map Hub.user (hub_list out)) /\
  sorted_desc Hub.repo_count (hub_list out).
Proof.
  intros Hrun. destruct (process_inv _ _ _ _ Hrun) as (rc & _ & Hwf & Hout).
  pose proof (analyse_inv _ Hout) as (_ & Hm & _ & Hh & _).
  destruct (build_graph_spec rc) as ((_ & Hu & _) & _).
  specialize (Hh Hu).
  assert (Hlen : forall login,
            len (contributed out login) = len (repos_contributed rc login)).
  { intros login. rewrite <- (len_perm (@contributed_repos rc out login Hout)).
    unfold len. now rewrite length_map. }
  split; [|split; [|split]].
  - intros login. rewrite <- (@key_joined rc out login Hout), Hlen. unfold is_hub. split.
    + intros (h & Hin & <-). apply (@hub_In rc out h Hout) in Hin.
      destruct Hin as (u & Hk & Hmany & ->). simpl. split; [exact Hk|].
      unfold in_many_repos in Hmany. rewrite Z.gtb_ltb in Hmany.
      now apply Z.ltb_lt.
    + intros (Hk & Hmany).
      exists (hub_of rc (user_collaborations (build_graph rc)) login).
      split; [|reflexivity]. apply (@hub_In rc out _ Hout). exists login.
      split; [exact Hk|]. split; [|reflexivity].
      unfold in_many_repos. rewrite Z.gtb_ltb. now apply Z.ltb_lt.
  - intros h Hin. apply (@hub_In rc out h Hout) in Hin.
    destruct Hin as (u & Hk & _ & ->). simpl. split; [|split].
    + symmetry. now apply contributed_repos.
    + reflexivity.
    + exists (user_metric_of rc
                (u, dd_get [] u (user_collaborations (build_graph rc)))).
      split; [|split; reflexivity].
      rewrite Hm. apply sort_desc_In, in_map. now apply dd_get_entry.
  - rewrite Hh.
    apply (Permutation_NoDup
             (Permutation_sym (Permutation_map Hub.user (sort_desc_perm _ _)))).
    rewrite map_map. simpl. rewrite map_id. now apply NoDup_filter.
  - rewrite Hh. apply sort_desc_sorted.
Qed.

(** C2, as the code has it. The edge list is in decreasing weight, and the
    edges of one weight are in the order they were generated. *)
Theorem edges_by_weight (issues prs commits events : list json) (out : output) :
  process_collaboration_networks issues prs commits events = Ok out ->
  sorted_desc Edge.weight (collaboration_edges out) /\
  exists rc,
    collect_contributors issues prs commits events = Ok rc /\
    Permutation (collaboration_edges out) (generated_edges rc) /\
    forall w,
      of_weight w (collaboration_edges out) = of_weight w (generated_edges rc).
Proof.
  intros Hrun. destruct (process_inv _ _ _ _ Hrun) as (rc & Hrc & _ & Hout).
  destruct (analyse_inv _ Hout) as (He & _). rewrite He. split.
  - apply sort_desc_sorted.
  - exists rc. split; [exact Hrc|]. split.
    + apply sort_desc_perm.
    + intros w. apply sort_desc_stable.
Qed.

End OrderClaims.

(** C1 as stated fails: alice is the only contributor of two repositories,
    both profiles list her, and the run saves no hub. *)
Lemma hubs_solo_counterexample :
  exists out,
    process_collaboration_networks (PS := insertion_order)
      solo_issues [] [] [] = Ok out /\
    1 < len (contributed out "alice") /\
    hub_list out = [] /\
    ~ is_hub out "alice".
Proof.
  eexists. split; [vm_compute; reflexivity|].
  split; [reflexivity|]. split; [reflexivity|].
  intros (h & Hin & _). exact Hin.
Qed.

Lemma hubs_are_linked_witness :
  exists out,
    process_collaboration_networks (PS := insertion_order)
      hub_issues hub_prs [] hub_events = Ok out /\
    (forall login,
       is_hub out login <->
       (exists other, joined out login other) /\
       1 < len (contributed out login)) /\
    (forall h, In h (hub_list out) ->
       Permutation (Hub.repositories h)
         (map RepoAnalysis.repo (contributed out (Hub.user h))) /\
       Hub.repo_count h = len (Hub.repositories h) /\
       exists m, In m (user_metrics out) /\
                 UserMetric.user m = Hub.user h /\
                 Hub.total_collaborators h = UserMetric.collaborator_count m) /\
    NoDup (map Hub.user (hub_list out)) /\
    sorted_desc Hub.repo_count (hub_list out).
Proof.
  eexists. split; [vm_compute; reflexivity|].
  apply (hubs_are_linked (PS := insertion_order) hub_issues hub_prs []
           hub_events).
  vm_compute. reflexivity.
Defined.

(** C2 as stated fails: the edges y-z and a-b both have weight 1, and y-z,
    generated first, is published first. *)
Lemma edges_tie_counterexample :
  exists out,
    process_collaboration_networks (PS := insertion_order)
      tie_issues [] [] [] = Ok out /\
    map edge_pair (collaboration_edges out) = [("y", "z"); ("a", "b")] /\
    map Edge.weight (collaboration_edges out) = [1; 1] /\
    ~ weight_then_pair_order (collaboration_edges out).
Proof.
  eexists. split; [vm_compute; reflexivity|].
  split; [reflexivity|]. split; [reflexivity|].
  intros Hs. inversion Hs as [|e l _ Hall]; subst.
  inversion Hall as [|e' l' [Hlt|[_ Hle]] _]; subst.
  - vm_compute in Hlt. discriminate.
  - vm_compute in Hle. discriminate.
Qed.

Lemma edges_by_weight_witness :
  exists out,
    process_collaboration_networks (PS := insertion_order)
      tie_issues [] [] [] = Ok out /\
    sorted_desc Edge.weight (collaboration_edges out) /\
    exists rc,
      collect_contributors (PS := insertion_order) tie_issues [] [] [] = Ok rc /\
      Permutation (collaboration_edges out)
        (generated_edges (PS := insertion_order) rc) /\
      forall w,
        of_weight w (collaboration_edges out) =
        of_weight w (generated_edges (PS := insertion_order) rc).
Proof.
  eexists. split; [vm_compute; reflexivity|].
  apply (edges_by_weight (PS := insertion_order) tie_issues [] [] []).
  vm_compute. reflexivity.
Defined.

(** ** The collection phase, record by record *)

Lemma bind_Ok_inv {A B : Type} (m : outcome A) (k : A -> outcome B) (b : B) :
  bind m k = Ok b -> exists a, m = Ok a /\ k a = Ok b.
Proof. destruct m; simpl; try discriminate. eauto. Qed.

Lemma bind_Raise_inv {A B : Type} (m : outcome A) (k : A -> outcome B) (e : exn) :
  bind m k = Raise e -> m = Raise e \/ exists a, m = Ok a /\ k a = Raise e.
Proof.
  destruct m; simpl; try discriminate; eauto. intros [= ->]. now left.
Qed.

Lemma bind_assoc {A B C : Type} (m : outcome A) (f : A -> outcome B)
  (g : B -> outcome C) :
  bind (bind m f) g = bind m (fun a => bind (f a) g).
Proof. destruct m; reflexivity. Qed.

Lemma bind_ext {A B : Type} (m : outcome A) (f g : A -> outcome B) :
  (forall a, f a = g a) -> bind m f = bind m g.
Proof. intros H. destruct m; simpl; auto. Qed.

Section CollectFacts.
Context {PS : PySet}.

Lemma add_login_pair (rc : index) (repo record : json) (field : string) :
  add_login rc repo record field =
  (p <- login_pair repo record field ;; Ok (add_pair (fst p) (snd p) rc)).
Proof.
  unfold add_login, login_pair.
  destruct (bucket_key repo); simpl; try reflexivity.
  destruct (py_item record field); simpl; try reflexivity.
  destruct (py_item _ "login"); simpl; try reflexivity.
  destruct (member_key _); reflexivity.
Qed.

Lemma guarded_add_pairs (c : json) (rc : index) (repo record : json)
  (field : string) :
  (if truthy c then add_login rc repo record field else Ok rc) =
  (ps <- guarded_pair c repo record field ;; Ok (add_pairs ps rc)).
Proof.
  unfold guarded_pair. destruct (truthy c); [|reflexivity].
  rewrite add_login_pair. destruct (login_pair repo record field); reflexivity.
Qed.

Lemma add_pairs_app (ps qs : list (repo_id * string)) (rc : index) :
  add_pairs (ps ++ qs) rc = add_pairs qs (add_pairs ps rc).
Proof. unfold add_pairs. apply fold_left_app. Qed.

(** What a record does to the index: it enters the pairs it yields, and
    it raises when reading them raises. *)
Lemma step_pairs (k : kind) (rc : index) (record : json) :
  step k rc record = (ps <- record_pairs k record ;; Ok (add_pairs ps rc)).
Proof.
  destruct k; simpl; unfold issue_step, pr_step, commit_step, event_step,
    record_pairs;
    destruct (py_get record "repo_name" (JStr "unknown")) as [repo| |];
    simpl; try reflexivity.
  - destruct (get_get_login record "user") as [c1| |]; simpl; try reflexivity.
    rewrite guarded_add_pairs.
    destruct (guarded_pair c1 repo record "user") as [ps1| |]; simpl;
      try reflexivity.
    destruct (get_and_login record "assignee") as [c2| |]; simpl;
      try reflexivity.
    rewrite guarded_add_pairs.
    destruct (guarded_pair c2 repo record "assignee") as [ps2| |]; simpl;
      try reflexivity.
    now rewrite add_pairs_app.
  - destruct (get_get_login record "user") as [c| |]; simpl; try reflexivity.
    apply guarded_add_pairs.
  - destruct (get_and_login record "author") as [c| |]; simpl; try reflexivity.
    apply guarded_add_pairs.
  - destruct (get_and_login record "actor") as [c| |]; simpl; try reflexivity.
    apply guarded_add_pairs.
Qed.

Lemma bucket_add_pair (r r' : repo_id) (l l' : string) (rc : index) :
  In l' (bucket r' (add_pair r l rc)) <->
  In l' (bucket r' rc) \/ (r' = r /\ l' = l).
Proof.
  unfold bucket, add_pair. destruct (eq_dec r' r) as [->|Hne].
  - rewrite dd_get_update_same, set_add_In. intuition.
  - rewrite dd_get_update_other by exact Hne. intuition congruence.
Qed.

Lemma bucket_add_pairs (ps : list (repo_id * string)) (r : repo_id)
  (l : string) (rc : index) :
  In l (bucket r (add_pairs ps rc)) <-> In l (bucket r rc) \/ In (r, l) ps.
Proof.
  revert rc. induction ps as [|[r0 l0] ps IH]; intros rc; simpl.
  - tauto.
  - unfold add_pairs in *. simpl. rewrite IH, bucket_add_pair. split.
    + intros [[H|[-> ->]]|H]; auto.
    + intros [H|[[= -> ->]|H]]; auto.
Qed.

(** A loop over records enters the pairs its records yield. *)
Lemma for_each_yields (k : kind) (records : list json) (rc rc' : index)
  (r : repo_id) (l : string) :
  for_each (step k) records rc = Ok rc' ->
  (In l (bucket r rc') <-> In l (bucket r rc) \/ yields k records r l).
Proof.
  revert rc. induction records as [|j records IH]; intros rc Hrun; simpl in Hrun.
  - injection Hrun as <-. unfold yields. split; [auto|].
    intros [H|(j & ps & [] & _)]. exact H.
  - apply bind_Ok_inv in Hrun. destruct Hrun as (rc1 & Hj & Hrun).
    rewrite step_pairs in Hj. apply bind_Ok_inv in Hj.
    destruct Hj as (ps & Hps & [= <-]).
    rewrite (IH _ Hrun), bucket_add_pairs. unfold yields. split.
    + intros [[H|H]|(j' & ps' & Hin & Hps' & H)]; auto.
      * right. exists j, ps. simpl. auto.
      * right. exists j', ps'. simpl. auto.
    + intros [H|(j' & ps' & [<-|Hin] & Hps' & H)]; auto.
      * rewrite Hps in Hps'. injection Hps' as <-. auto.
      * right. exists j', ps'. auto.
Qed.

Lemma collect_loops (issues prs commits events : list json) (rc : index) :
  collect_contributors issues prs commits events = Ok rc ->
  exists rc1 rc2 rc3,
    for_each (step Issue) issues [] = Ok rc1 /\
    for_each (step PullRequest) prs rc1 = Ok rc2 /\
    for_each (step Commit) commits rc2 = Ok rc3 /\
    for_each (step IssueEvent) events rc3 = Ok rc.
Proof.
  unfold collect_contributors. intros Hrun.
  apply bind_Ok_inv in Hrun. destruct Hrun as (_ & _ & Hrun).
  apply bind_Ok_inv in Hrun. destruct Hrun as (rc1 & H1 & Hrun).
  apply bind_Ok_inv in Hrun. destruct Hrun as (rc2 & H2 & Hrun).
  apply bind_Ok_inv in Hrun. destruct Hrun as (rc3 & H3 & Hrun).
  exists rc1, rc2, rc3. auto.
Qed.

Lemma for_each_app {S A : Type} (body : S -> A -> outcome S) (l1 l2 : list A)
  (s : S) :
  for_each body (l1 ++ l2) s = (s' <- for_each body l1 s ;; for_each body l2 s').
Proof.
  revert s. induction l1 as [|a l1 IH]; intros s; simpl; [reflexivity|].
  destruct (body s a); simpl; auto.
Qed.

Lemma for_each_raise {S A : Type} (body : S -> A -> outcome S) (l : list A)
  (s : S) (e : exn) :
  for_each body l s = Raise e -> exists s0 a, In a l /\ body s0 a = Raise e.
Proof.
  revert s. induction l as [|a l IH]; intros s; simpl; [discriminate|].
  intros H. apply bind_Raise_inv in H. destruct H as [H|(s1 & _ & H)].
  - exists s, a. auto.
  - destruct (IH _ H) as (s0 & a0 & Hin & Hr). exists s0, a0. auto.
Qed.

(** Every repository of the index has a contributor. *)
Lemma add_pair_full (r : repo_id) (l : string) (rc : index) :
  index_full rc -> index_full (add_pair r l rc).
Proof.
  unfold index_full, add_pair. induction rc as [|[r0 s] rc IH]; simpl; intros Hf.
  - constructor; [|constructor]. simpl. apply set_add_nonempty.
  - inversion Hf as [|? ? H0 Hf']; subst.
    destruct (eq_dec r r0); constructor; simpl; auto using set_add_nonempty.
Qed.

Lemma add_pairs_inv (P : index -> Prop) :
  (forall r l rc, P rc -> P (add_pair r l rc)) ->
  forall ps rc, P rc -> P (add_pairs ps rc).
Proof.
  intros Hadd. induction ps as [|[r l] ps IH]; intros rc Hrc; [exact Hrc|].
  unfold add_pairs in *. simpl. apply IH. now apply Hadd.
Qed.

(** A property of the index that entering a pair keeps holds after the
    four loops. *)
Lemma collect_inv (P : index -> Prop) :
  P [] -> (forall r l rc, P rc -> P (add_pair r l rc)) ->
  forall issues prs commits events rc,
    collect_contributors issues prs commits events = Ok rc -> P rc.
Proof.
  intros H0 Hadd issues prs commits events rc Hrun.
  assert (Hstep : forall k rc j rc', P rc -> step k rc j = Ok rc' -> P rc').
  { intros k rc0 j rc' Hrc Hj. rewrite step_pairs in Hj.
    apply bind_Ok_inv in Hj. destruct Hj as (ps & _ & [= <-]).
    now apply add_pairs_inv. }
  destruct (collect_loops _ _ _ _ Hrun) as (rc1 & rc2 & rc3 & H1 & H2 & H3 & H4).
  pose proof (for_each_inv P (step Issue) (Hstep Issue) _ _ H0 H1) as P1.
  pose proof (for_each_inv P (step PullRequest) (Hstep PullRequest) _ _ P1 H2)
    as P2.
  pose proof (for_each_inv P (step Commit) (Hstep Commit) _ _ P2 H3) as P3.
  exact (for_each_inv P (step IssueEvent) (Hstep IssueEvent) _ _ P3 H4).
Qed.

Lemma collect_full (issues prs commits events : list json) (rc : index) :
  collect_contributors issues prs commits events = Ok rc -> index_full rc.
Proof.
  apply (collect_inv index_full); [constructor|]. intros r l rc0.
  apply add_pair_full.
Qed.

Lemma full_bucket (rc : index) (r : repo_id) :
  index_wf rc -> index_full rc ->
  (In r (keys rc) <-> exists l, In l (bucket r rc)).
Proof.
  intros [Hk _] Hf. split.
  - intros Hr. apply in_map_iff in Hr. destruct Hr as ([r' s] & <- & Hin).
    unfold index_full in Hf. rewrite Forall_forall in Hf.
    specialize (Hf _ Hin). simpl in *. unfold bucket.
    rewrite (dd_get_In [] _ _ _ Hk Hin). destruct s as [|l s]; [congruence|].
    exists l. now left.
  - intros (l & Hl). eapply dd_get_key. exact Hl.
Qed.

(** X1. After the four loops a login is among the contributors of a
    repository exactly when some issue, pull request, commit or issue
    event yields that pair; and a repository is in the index exactly when
    it has a contributor. *)
Theorem contributors_from_records (issues prs commits events : list json)
  (rc : index) :
  collect_contributors issues prs commits events = Ok rc ->
  (forall r l,
     In l (bucket r rc) <->
     yields Issue issues r l \/ yields PullRequest prs r l \/
     yields Commit commits r l \/ yields IssueEvent events r l) /\
  (forall r, In r (keys rc) <-> exists l, In l (bucket r rc)).
Proof.
  intros Hrun. split.
  - intros r l. destruct (collect_loops _ _ _ _ Hrun)
      as (rc1 & rc2 & rc3 & H1 & H2 & H3 & H4).
    rewrite (for_each_yields _ _ _ r l H4), (for_each_yields _ _ _ r l H3),
      (for_each_yields _ _ _ r l H2), (for_each_yields _ _ _ r l H1).
    unfold bucket, dd_get. simpl. tauto.
  - intros r. apply full_bucket.
    + now apply collect_contributors_wf in Hrun.
    + now apply collect_full in Hrun.
Qed.

Lemma add_pair_old (r : repo_id) (l : string) (rc : index) :
  In l (bucket r rc) -> add_pair r l rc = rc.
Proof.
  unfold bucket, add_pair, dd_get.
  induction rc as [|[r0 s] rc IH]; simpl; [tauto|].
  destruct (eq_dec r r0) as [->|Hne]; intros Hl.
  - now rewrite (set_add_old _ _ Hl).
  - now rewrite IH.
Qed.

Lemma add_pairs_old (ps : list (repo_id * string)) (rc : index) :
  (forall r l, In (r, l) ps -> In l (bucket r rc)) -> add_pairs ps rc = rc.
Proof.
  induction ps as [|[r l] ps IH]; intros Hold; [reflexivity|].
  unfold add_pairs in *. simpl. rewrite add_pair_old by (apply Hold; now left).
  apply IH. intros r' l' Hin. apply Hold. now right.
Qed.

(** Records whose pairs the index holds already leave it as it is. *)
Lemma for_each_old (k : kind) (records : list json) (rc rc' rc2 : index) :
  for_each (step k) records rc = Ok rc' ->
  (forall r l, yields k records r l -> In l (bucket r rc2)) ->
  for_each (step k) records rc2 = Ok rc2.
Proof.
  revert rc. induction records as [|j records IH]; intros rc Hrun Hold;
    [reflexivity|].
  simpl in *. apply bind_Ok_inv in Hrun. destruct Hrun as (rc1 & Hj & Hrun).
  rewrite step_pairs in Hj. apply bind_Ok_inv in Hj.
  destruct Hj as (ps & Hps & _).
  rewrite step_pairs, Hps. simpl. rewrite add_pairs_old.
  - apply (IH _ Hrun). intros r l (j' & ps' & Hin & Hps' & H).
    apply Hold. exists j', ps'. simpl. auto.
  - intros r l Hin. apply Hold. exists j, ps. simpl. auto.
Qed.

(** X2. Reading a list of records a second time changes nothing: the
    index a loop ends with is a fixed point of that loop, and the list
    read twice in a row gives the index of one reading. *)
Theorem rereading_changes_nothing (k : kind) (records : list json)
  (rc rc' : index) :
  for_each (step k) records rc = Ok rc' ->
  for_each (step k) records rc' = Ok rc' /\
  for_each (step k) (records ++ records) rc = Ok rc'.
Proof.
  intros Hrun. assert (Hfix : for_each (step k) records rc' = Ok rc').
  { apply (for_each_old _ _ Hrun). intros r l Hy.
    apply (for_each_yields _ _ _ r l Hrun). now right. }
  split; [exact Hfix|]. rewrite for_each_app, Hrun. exact Hfix.
Qed.

End CollectFacts.

(** ** The errors of a run *)

Lemma get_get_login_inv (d : jdict) (field : string) (c : json) :
  get_get_login (JDict d) field = Ok c -> truthy c = true ->
  exists u, lookup field d = Some (JDict u) /\ lookup "login" u = Some c.
Proof.
  unfold get_get_login. simpl.
  destruct (lookup field d) as [[]|]; simpl; try discriminate.
  - destruct (lookup "login" d0) eqn:E; intros [= <-] Ht; [eauto|discriminate].
  - intros [= <-]. discriminate.
Qed.

Lemma get_and_login_inv (d : jdict) (field : string) (c : json) :
  get_and_login (JDict d) field = Ok c -> truthy c = true ->
  exists u, lookup field d = Some (JDict u) /\ lookup "login" u = Some c.
Proof.
  unfold get_and_login, py_and. simpl.
  destruct (lookup field d) as [a|] eqn:Ef; simpl.
  - destruct (truthy a) eqn:Ea.
    + destruct a; simpl; try discriminate.
      destruct (lookup "login" d0) eqn:E; intros [= <-] Ht; [eauto|discriminate].
    + intros [= <-] Ht. congruence.
  - intros [= <-]. discriminate.
Qed.

Lemma get_get_login_raise (d : jdict) (field : string) (e : exn) :
  get_get_login (JDict d) field = Raise e -> e = AttributeError.
Proof.
  unfold get_get_login. simpl.
  destruct (lookup field d) as [[]|]; simpl; congruence.
Qed.

Lemma get_and_login_raise (d : jdict) (field : string) (e : exn) :
  get_and_login (JDict d) field = Raise e -> e = AttributeError.
Proof.
  unfold get_and_login, py_and. simpl.
  destruct (lookup field d) as [a|] eqn:Ef; simpl; [|discriminate].
  destruct (truthy a); [|discriminate].
  destruct a; simpl; congruence.
Qed.

Lemma login_pair_present (repo : json) (d u : jdict) (field : string) (c : json) :
  lookup field d = Some (JDict u) -> lookup "login" u = Some c ->
  login_pair repo (JDict d) field =
  (k <- bucket_key repo ;; m <- member_key c ;; Ok (k, m)).
Proof.
  intros Hf Hl. unfold login_pair. simpl. rewrite Hf. simpl. now rewrite Hl.
Qed.

Lemma guarded_pair_raise (c repo : json) (d : jdict) (field : string) (e : exn) :
  (truthy c = true ->
   exists u, lookup field d = Some (JDict u) /\ lookup "login" u = Some c) ->
  guarded_pair c repo (JDict d) field = Raise e -> e = TypeError.
Proof.
  unfold guarded_pair. intros Hc. destruct (truthy c); [|discriminate].
  destruct (Hc eq_refl) as (u & Hf & Hl).
  rewrite (login_pair_present _ _ _ Hf Hl).
  destruct repo; simpl; try discriminate; try congruence;
    destruct c; simpl; try discriminate; congruence.
Qed.

(** Reading a record raises nothing but an AttributeError or a
    TypeError. *)
Lemma record_pairs_raise (k : kind) (record : json) (e : exn) :
  record_pairs k record = Raise e -> read_error e.
Proof.
  unfold record_pairs, read_error.
  destruct record as [| | | | |d]; simpl; try (intros [= <-]; now left).
  set (repo := match lookup "repo_name" d with
               | Some v => v | None => JStr "unknown" end).
  destruct k.
  - intros H. apply bind_Raise_inv in H.
    destruct H as [H|(c1 & Hc1 & H)]; [left; eapply get_get_login_raise; eauto|].
    apply bind_Raise_inv in H.
    destruct H as [H|(ps1 & _ & H)].
    { right. eapply guarded_pair_raise; [|exact H].
      now apply get_get_login_inv. }
    apply bind_Raise_inv in H.
    destruct H as [H|(c2 & Hc2 & H)]; [left; eapply get_and_login_raise; eauto|].
    apply bind_Raise_inv in H.
    destruct H as [H|(ps2 & _ & H)]; [|discriminate].
    right. eapply guarded_pair_raise; [|exact H]. now apply get_and_login_inv.
  - intros H. apply bind_Raise_inv in H.
    destruct H as [H|(c & Hc & H)]; [left; eapply get_get_login_raise; eauto|].
    right. eapply guarded_pair_raise; [|exact H]. now apply get_get_login_inv.
  - intros H. apply bind_Raise_inv in H.
    destruct H as [H|(c & Hc & H)]; [left; eapply get_and_login_raise; eauto|].
    right. eapply guarded_pair_raise; [|exact H]. now apply get_and_login_inv.
  - intros H. apply bind_Raise_inv in H.
    destruct H as [H|(c & Hc & H)]; [left; eapply get_and_login_raise; eauto|].
    right. eapply guarded_pair_raise; [|exact H]. now apply get_and_login_inv.
Qed.

Lemma bind_Unmodelled_inv {A B : Type} (m : outcome A) (k : A -> outcome B) :
  bind m k = Unmodelled ->
  m = Unmodelled \/ exists a, m = Ok a /\ k a = Unmodelled.
Proof. destruct m; simpl; try discriminate; eauto. Qed.

Lemma get_get_login_modelled (record : json) (field : string) :
  get_get_login record field <> Unmodelled.
Proof.
  unfold get_get_login. destruct record; simpl; try discriminate.
  destruct (match lookup field d with Some v => v | None => JDict [] end);
    discriminate.
Qed.

Lemma get_and_login_modelled (record : json) (field : string) :
  get_and_login record field <> Unmodelled.
Proof.
  unfold get_and_login, py_and. destruct record; simpl; try discriminate.
  destruct (truthy _); [|discriminate].
  destruct (lookup field d) as [[]|]; simpl; discriminate.
Qed.

Lemma guarded_pair_modelled (c repo : json) (d : jdict) (field : string) :
  (truthy c = true ->
   exists u, lookup field d = Some (JDict u) /\ lookup "login" u = Some c) ->
  plain repo = true -> plain_actor d field = true ->
  guarded_pair c repo (JDict d) field <> Unmodelled.
Proof.
  unfold guarded_pair, plain_actor. intros Hc Hrepo Hplain.
  destruct (truthy c) eqn:Et; [|discriminate].
  destruct (Hc eq_refl) as (u & Hf & Hl). rewrite Hf, Hl in Hplain.
  rewrite (login_pair_present _ _ _ Hf Hl).
  destruct repo; try discriminate; destruct c; discriminate.
Qed.

(** Reading a record whose repository name and logins are plain is
    followed to its end. *)
Lemma record_pairs_modelled (k : kind) (record : json) :
  plain_record k record = true -> record_pairs k record <> Unmodelled.
Proof.
  destruct record as [| | | | |d]; try discriminate. simpl.
  intros Hp. apply andb_true_iff in Hp. destruct Hp as [Hp Ha].
  apply andb_true_iff in Hp. destruct Hp as [Hrepo Hf].
  unfold record_pairs. cbn [bind py_get].
  set (repo := match lookup "repo_name" d with
               | Some v => v | None => JStr "unknown" end).
  assert (Hr : plain repo = true).
  { unfold repo. destruct (lookup "repo_name" d); [exact Hrepo|reflexivity]. }
  destruct k; simpl in Hf; intros H; apply bind_Unmodelled_inv in H.
  - destruct H as [H|(c1 & Hc1 & H)]; [now apply get_get_login_modelled in H|].
    apply bind_Unmodelled_inv in H. destruct H as [H|(ps1 & _ & H)].
    { revert H. apply guarded_pair_modelled; auto.
      now apply get_get_login_inv. }
    apply bind_Unmodelled_inv in H.
    destruct H as [H|(c2 & Hc2 & H)]; [now apply get_and_login_modelled in H|].
    apply bind_Unmodelled_inv in H.
    destruct H as [H|(ps2 & _ & H)]; [|discriminate].
    revert H. apply guarded_pair_modelled; auto. now apply get_and_login_inv.
  - destruct H as [H|(c & Hc & H)]; [now apply get_get_login_modelled in H|].
    revert H. apply guarded_pair_modelled; auto. now apply get_get_login_inv.
  - destruct H as [H|(c & Hc & H)]; [now apply get_and_login_modelled in H|].
    revert H. apply guarded_pair_modelled; auto. now apply get_and_login_inv.
  - destruct H as [H|(c & Hc & H)]; [now apply get_and_login_modelled in H|].
    revert H. apply guarded_pair_modelled; auto. now apply get_and_login_inv.
Qed.

Section ErrorFacts.
Context {PS : PySet}.

Lemma step_raise (k : kind) (rc : index) (record : json) (e : exn) :
  step k rc record = Raise e -> read_error e.
Proof.
  rewrite step_pairs. intros H. apply bind_Raise_inv in H.
  destruct H as [H|(ps & _ & H)]; [|discriminate].
  now apply record_pairs_raise in H.
Qed.

Lemma for_each_modelled (k : kind) (records : list json) (rc : index) :
  forallb (plain_record k) records = true ->
  for_each (step k) records rc <> Unmodelled.
Proof.
  revert rc. induction records as [|j records IH]; intros rc; simpl;
    [discriminate|].
  intros Hp. apply andb_true_iff in Hp. destruct Hp as [Hj Hrest].
  intros H. apply bind_Unmodelled_inv in H.
  destruct H as [H|(rc1 & _ & H)]; [|exact (IH rc1 Hrest H)].
  rewrite step_pairs in H. apply bind_Unmodelled_inv in H.
  destruct H as [H|(ps & _ & H)]; [|discriminate].
  exact (record_pairs_modelled _ _ Hj H).
Qed.

Lemma skip_metadata_modelled (data_lists : list (list json)) :
  skip_metadata data_lists <> Unmodelled.
Proof.
  unfold skip_metadata. induction data_lists as [|l ls IH]; simpl;
    [discriminate|].
  destruct l as [|first l]; simpl; [exact IH|].
  destruct first; simpl; try discriminate; exact IH.
Qed.

Lemma skip_metadata_raise (data_lists : list (list json)) (e : exn) :
  skip_metadata data_lists = Raise e -> e = TypeError.
Proof.
  unfold skip_metadata. intros H. apply for_each_raise in H.
  destruct H as ([] & l & _ & H). apply bind_Raise_inv in H.
  destruct H as [H|(c & _ & H)]; [|discriminate].
  destruct l as [|first l]; [discriminate|].
  destruct first; simpl in H; congruence.
Qed.

Lemma collect_raise (issues prs commits events : list json) (e : exn) :
  collect_contributors issues prs commits events = Raise e -> read_error e.
Proof.
  unfold collect_contributors. intros H.
  apply bind_Raise_inv in H. destruct H as [H|(_ & _ & H)].
  { right. now apply skip_metadata_raise in H. }
  assert (Hloop : forall k l rc, for_each (step k) l rc = Raise e -> read_error e).
  { intros k l rc Hl. apply for_each_raise in Hl.
    destruct Hl as (s0 & j & _ & Hj). now apply step_raise in Hj. }
  apply bind_Raise_inv in H. destruct H as [H|(rc1 & _ & H)];
    [exact (Hloop Issue _ _ H)|].
  apply bind_Raise_inv in H. destruct H as [H|(rc2 & _ & H)];
    [exact (Hloop PullRequest _ _ H)|].
  apply bind_Raise_inv in H. destruct H as [H|(rc3 & _ & H)];
    [exact (Hloop Commit _ _ H)|].
  exact (Hloop IssueEvent _ _ H).
Qed.

(** X3. When every repository name and every login of the records is
    plain (not a number, not a boolean), the run is followed to its end:
    it returns, or it raises while it reads the records, before any list
    is built, with an AttributeError or a TypeError.  A KeyError is never
    raised, since [record[field]['login']] is evaluated only after the
    test found that login. *)
Theorem run_errors (issues prs commits events : list json) :
  forallb (plain_record Issue) issues = true ->
  forallb (plain_record PullRequest) prs = true ->
  forallb (plain_record Commit) commits = true ->
  forallb (plain_record IssueEvent) events = true ->
  process_collaboration_networks issues prs commits events <> Unmodelled /\
  forall e,
    process_collaboration_networks issues prs commits events = Raise e ->
    collect_contributors issues prs commits events = Raise e /\ read_error e.
Proof.
  intros Hi Hp Hc He. split.
  - unfold process_collaboration_networks, collect_contributors. intros H.
    apply bind_Unmodelled_inv in H. destruct H as [H|(rc & _ & H)].
    + apply bind_Unmodelled_inv in H. destruct H as [H|(_ & _ & H)];
        [now apply skip_metadata_modelled in H|].
      apply bind_Unmodelled_inv in H. destruct H as [H|(rc1 & _ & H)];
        [exact (@for_each_modelled Issue _ _ Hi H)|].
      apply bind_Unmodelled_inv in H. destruct H as [H|(rc2 & _ & H)];
        [exact (@for_each_modelled PullRequest _ _ Hp H)|].
      apply bind_Unmodelled_inv in H. destruct H as [H|(rc3 & _ & H)];
        [exact (@for_each_modelled Commit _ _ Hc H)|].
      exact (@for_each_modelled IssueEvent _ _ He H).
    + destruct (analyse_total rc) as (out & Hout). congruence.
  - intros e. unfold process_collaboration_networks. intros H.
    apply bind_Raise_inv in H. destruct H as [H|(rc & _ & H)].
    + split; [exact H|]. now apply collect_raise in H.
    + destruct (analyse_total rc) as (out & Hout). congruence.
Qed.

End ErrorFacts.

(** ** Records read without an error *)

Lemma guarded_pair_ok (c repo : json) (r : repo_id) (d : jdict) (field : string) :
  bucket_key repo = Ok r ->
  (c = JNull \/
   exists u s, c = JStr s /\ lookup field d = Some (JDict u) /\
               lookup "login" u = Some (JStr s)) ->
  exists ps, guarded_pair c repo (JDict d) field = Ok ps.
Proof.
  intros Hr [->|(u & s & -> & Hf & Hl)]; unfold guarded_pair.
  - simpl. eauto.
  - destruct (truthy (JStr s)); [|eauto].
    rewrite (login_pair_present _ _ _ Hf Hl), Hr. simpl. eauto.
Qed.

Lemma user_field_ok (repo : json) (r : repo_id) (d : jdict) (field : string) :
  bucket_key repo = Ok r -> actor_ok false d field = true ->
  exists c ps, get_get_login (JDict d) field = Ok c /\
               guarded_pair c repo (JDict d) field = Ok ps.
Proof.
  intros Hr Hok.
  assert (H : exists c, get_get_login (JDict d) field = Ok c /\
            (c = JNull \/
             exists u s, c = JStr s /\ lookup field d = Some (JDict u) /\
                         lookup "login" u = Some (JStr s))).
  { unfold actor_ok, login_ok in Hok. unfold get_get_login. simpl.
    destruct (lookup field d) as [[| | | | |u]|] eqn:Ef; try discriminate; simpl.
    - destruct (lookup "login" u) as [[]|] eqn:El; try discriminate; eauto 8.
    - eauto. }
  destruct H as (c & Hc & Hcase).
  destruct (guarded_pair_ok repo d field Hr Hcase) as (ps & Hps). eauto.
Qed.

Lemma guarded_field_ok (repo : json) (r : repo_id) (d : jdict) (field : string) :
  bucket_key repo = Ok r -> actor_ok true d field = true ->
  exists c ps, get_and_login (JDict d) field = Ok c /\
               guarded_pair c repo (JDict d) field = Ok ps.
Proof.
  intros Hr Hok.
  assert (H : exists c, get_and_login (JDict d) field = Ok c /\
            (truthy c = false \/
             exists u s, c = JStr s /\ lookup field d = Some (JDict u) /\
                         lookup "login" u = Some (JStr s))).
  { unfold actor_ok, login_ok in Hok. unfold get_and_login, py_and, py_get, py_item.
    destruct (lookup field d) as [[| | | | |u]|] eqn:Ef; try discriminate;
      cbn [bind]; try (simpl; now eauto).
    destruct (truthy (JDict u)) eqn:Et; [|eauto].
    cbn [bind].
    destruct (lookup "login" u) as [[]|] eqn:El; try discriminate; eauto 8. }
  destruct H as (c & Hc & [Hf|Hcase]).
  - exists c, []. split; [exact Hc|]. unfold guarded_pair. now rewrite Hf.
  - destruct (guarded_pair_ok repo d field Hr (or_intror Hcase)) as (ps & Hps).
    eauto.
Qed.

Lemma repo_ok_key (d : jdict) :
  repo_ok d = true ->
  exists r, bucket_key
              (match lookup "repo_name" d with
               | Some v => v | None => JStr "unknown" end) = Ok r.
Proof.
  unfold repo_ok. destruct (lookup "repo_name" d) as [[]|]; try discriminate;
    simpl; eauto.
Qed.

Lemma record_ok_pairs (k : kind) (record : json) :
  record_ok k record = true -> exists ps, record_pairs k record = Ok ps.
Proof.
  destruct record as [| | | | |d]; try discriminate. simpl.
  intros H. apply andb_true_iff in H. destruct H as [Hrepo Hk].
  destruct (repo_ok_key _ Hrepo) as (r & Hr).
  unfold record_pairs. cbn [bind py_get]. destruct k.
  - apply andb_true_iff in Hk. destruct Hk as [Hu Ha].
    destruct (user_field_ok _ _ _ Hr Hu) as (c1 & ps1 & Hc1 & Hps1).
    rewrite Hc1. cbn [bind]. rewrite Hps1. cbn [bind].
    destruct (guarded_field_ok _ _ _ Hr Ha) as (c2 & ps2 & Hc2 & Hps2).
    rewrite Hc2. cbn [bind]. rewrite Hps2. cbn [bind]. eauto.
  - destruct (user_field_ok _ _ _ Hr Hk) as (c & ps & Hc & Hps).
    rewrite Hc. cbn [bind]. eauto.
  - destruct (guarded_field_ok _ _ _ Hr Hk) as (c & ps & Hc & Hps).
    rewrite Hc. cbn [bind]. eauto.
  - destruct (guarded_field_ok _ _ _ Hr Hk) as (c & ps & Hc & Hps).
    rewrite Hc. cbn [bind]. eauto.
Qed.

Section SuccessFacts.
Context {PS : PySet}.

Lemma for_each_ok (k : kind) (records : list json) (rc : index) :
  forallb (record_ok k) records = true ->
  exists rc', for_each (step k) records rc = Ok rc'.
Proof.
  revert rc. induction records as [|j records IH]; intros rc; simpl.
  - eauto.
  - intros H. apply andb_true_iff in H. destruct H as [Hj Hrest].
    rewrite step_pairs. destruct (record_ok_pairs _ _ Hj) as (ps & ->). simpl.
    now apply IH.
Qed.

Lemma skip_metadata_ok (data_lists : list (list json)) :
  Forall (fun l => exists k, forallb (record_ok k) l = true) data_lists ->
  skip_metadata data_lists = Ok tt.
Proof.
  unfold skip_metadata. induction 1 as [|l ls (k & Hl) _ IH]; [reflexivity|].
  simpl. destruct l as [|first l]; simpl; [exact IH|].
  simpl in Hl. apply andb_true_iff in Hl. destruct Hl as [Hfirst _].
  destruct first; try discriminate. simpl. exact IH.
Qed.

(** X4. When every record is an object with a usable [repo_name] and
    usable actor fields, the run raises nothing and returns its lists. *)
Theorem well_formed_run_succeeds (issues prs commits events : list json) :
  forallb (record_ok Issue) issues = true ->
  forallb (record_ok PullRequest) prs = true ->
  forallb (record_ok Commit) commits = true ->
  forallb (record_ok IssueEvent) events = true ->
  exists out, process_collaboration_networks issues prs commits events = Ok out.
Proof.
  intros Hi Hp Hc He. unfold process_collaboration_networks, collect_contributors.
  rewrite skip_metadata_ok by (repeat constructor; eauto). simpl.
  destruct (@for_each_ok Issue issues [] Hi) as (rc1 & H1).
  destruct (@for_each_ok PullRequest prs rc1 Hp) as (rc2 & H2).
  destruct (@for_each_ok Commit commits rc2 Hc) as (rc3 & H3).
  destruct (@for_each_ok IssueEvent events rc3 He) as (rc4 & H4).
  simpl in H1, H2, H3, H4. rewrite H1. simpl. rewrite H2. simpl.
  rewrite H3. simpl. rewrite H4. simpl. apply analyse_total.
Qed.

End SuccessFacts.

Lemma contributors_from_records_witness :
  exists rc,
    collect_contributors (PS := insertion_order)
      hub_issues hub_prs [stray_commit] hub_events = Ok rc /\
    (forall r l,
       In l (bucket r rc) <->
       yields Issue hub_issues r l \/ yields PullRequest hub_prs r l \/
       yields Commit [stray_commit] r l \/ yields IssueEvent hub_events r l) /\
    (forall r, In r (keys rc) <-> exists l, In l (bucket r rc)).
Proof.
  eexists. split; [vm_compute; reflexivity|].
  apply (contributors_from_records (PS := insertion_order)
           hub_issues hub_prs [stray_commit] hub_events).
  vm_compute. reflexivity.
Defined.

Lemma rereading_changes_nothing_witness :
  exists rc,
    for_each (step (PS := insertion_order) Issue) hub_issues [] = Ok rc /\
    for_each (step (PS := insertion_order) Issue) hub_issues rc = Ok rc /\
    for_each (step (PS := insertion_order) Issue) (hub_issues ++ hub_issues) [] =
      Ok rc.
Proof.
  eexists. split; [vm_compute; reflexivity|].
  apply (rereading_changes_nothing (PS := insertion_order) Issue hub_issues []).
  vm_compute. reflexivity.
Defined.

Lemma run_errors_witness :
  process_collaboration_networks (PS := insertion_order)
    [null_actor "user"] [] [] [] <> Unmodelled /\
  forall e,
    process_collaboration_networks (PS := insertion_order)
      [null_actor "user"] [] [] [] = Raise e ->
    collect_contributors (PS := insertion_order)
      [null_actor "user"] [] [] [] = Raise e /\ read_error e.
Proof.
  apply (run_errors (PS := insertion_order) [null_actor "user"] [] [] []);
    reflexivity.
Defined.

Lemma well_formed_run_succeeds_witness :
  exists out,
    process_collaboration_networks (PS := insertion_order)
      hub_issues hub_prs [stray_commit; null_actor "author"] hub_events = Ok out.
Proof.
  apply (well_formed_run_succeeds (PS := insertion_order)
           hub_issues hub_prs [stray_commit; null_actor "author"] hub_events);
    reflexivity.
Defined.

(** ** Sums and lengths *)

Lemma sum_from (l : list Z) (a : Z) : fold_left Z.add l a = a + sum l.
Proof.
  unfold sum. revert a. induction l as [|x l IH]; intros a; simpl; [lia|].
  rewrite (IH (a + x)), (IH x). lia.
Qed.

Lemma sum_cons (x : Z) (l : list Z) : sum (x :: l) = x + sum l.
Proof. unfold sum at 1. simpl. apply sum_from. Qed.

Lemma sum_app (l l' : list Z) : sum (l ++ l') = sum l + sum l'.
Proof.
  induction l as [|x l IH]; simpl; [reflexivity|].
  rewrite !sum_cons, IH. lia.
Qed.

Lemma sum_perm (l l' : list Z) : Permutation l l' -> sum l = sum l'.
Proof.
  induction 1 as [|x l l' _ IH|x y l|l l' l'' _ IH1 _ IH2];
    rewrite ?sum_cons; lia.
Qed.

Lemma sum_nonneg (l : list Z) : Forall (fun x => 0 <= x) l -> 0 <= sum l.
Proof.
  induction 1 as [|x l Hx _ IH]; [reflexivity|]. rewrite sum_cons. lia.
Qed.

Lemma len_app {A : Type} (l l' : list A) : len (l ++ l') = len l + len l'.
Proof. unfold len. rewrite length_app. lia. Qed.

Lemma len_cons {A : Type} (x : A) (l : list A) : len (x :: l) = 1 + len l.
Proof. unfold len. simpl length. lia. Qed.

Lemma len_map {A B : Type} (f : A -> B) (l : list A) : len (map f l) = len l.
Proof. unfold len. now rewrite length_map. Qed.

Lemma len_nonneg {A : Type} (l : list A) : 0 <= len l.
Proof. unfold len. lia. Qed.

Lemma len_zero {A : Type} (l : list A) : len l = 0 <-> l = [].
Proof.
  unfold len. destruct l; simpl; split; auto; try discriminate; lia.
Qed.

Lemma len_incl {A : Type} (l l' : list A) :
  NoDup l -> incl l l' -> len l <= len l'.
Proof.
  intros Hnd Hincl. unfold len. pose proof (NoDup_incl_length Hnd Hincl). lia.
Qed.

(** The sum of the lengths of the values of a dict. *)
Lemma sum_lens_flat {K V : Type} (d : list (K * list V)) :
  sum (map (fun c : list V => len c) (map snd d)) =
  len (flat_map (fun entry => map (pair (fst entry)) (snd entry)) d).
Proof.
  induction d as [|[k v] d IH]; simpl; [reflexivity|].
  rewrite sum_cons, IH, len_app, len_map. reflexivity.
Qed.

Lemma mean_val {A : Type} (total : Z) (d : list A) :
  d <> [] ->
  match d with [] => Ok 0%Q | _ => py_truediv total (len d) end =
  Ok (Qred (inject_Z total / inject_Z (len d))).
Proof.
  destruct d as [|x d]; [congruence|]. intros _.
  apply py_truediv_ok. unfold len. simpl. lia.
Qed.

Lemma mem_iff {K : Type} `{EqDec K} (x : K) (l : list K) (b : bool) :
  (In x l <-> b = true) -> mem x l = b.
Proof.
  intros Hb. unfold mem. destruct (in_dec eq_dec x l) as [Hin|Hn].
  - symmetry. now apply Hb.
  - destruct b; [|reflexivity]. exfalso. apply Hn, Hb. reflexivity.
Qed.

Lemma mem_cons {K : Type} `{EqDec K} (x y : K) (l : list K) :
  mem x (y :: l) = if eq_dec x y then true else mem x l.
Proof.
  apply mem_iff. simpl. destruct (eq_dec x y) as [->|Hne].
  - split; auto.
  - rewrite mem_In. intuition congruence.
Qed.

Section StatsFacts.
Context {PS : PySet}.

(** The summary [analyse] returns, field by field. *)
Lemma analyse_stats (rc : index) (out : output) :
  analyse rc = Ok out ->
  let uc := user_collaborations (build_graph rc) in
  NetworkStats.total_collaborations (network_stats out) =
    len (collaboration_edges out) /\
  (NoDup (keys uc) ->
   NetworkStats.cross_repo_contributors (network_stats out) =
     len (hub_list out) /\
   (cross_repo_list out = None <-> hub_list out = [])) /\
  (uc <> [] ->
   NetworkStats.avg_collaborators_per_user (network_stats out) =
     Qred (inject_Z (sum (map (fun c : list string => len c) (values uc))) /
           inject_Z (len uc))) /\
  (rc <> [] ->
   NetworkStats.avg_contributors_per_repo (network_stats out) =
     Qred (inject_Z (sum (map (fun c : list string => len c) (values rc))) /
           inject_Z (len rc))).
Proof.
  intros H uc. unfold analyse in H. cbv zeta in H.
  rewrite (traverse_map _ _ _ (repo_analysis_of_ok _)) in H.
  cbn [bind] in H. fold uc in H.
  destruct (mean_ok (sum (map (fun c : list string => len c) (values uc))) uc)
    as (q1 & E1 & _).
  pose proof (@mean_val _ (sum (map (fun c : list string => len c) (values uc))) uc)
    as V1.
  rewrite E1 in H, V1. cbn [bind] in H.
  destruct (mean_ok (sum (map (fun c : list string => len c) (values rc))) rc)
    as (q2 & E2 & _).
  pose proof (@mean_val _ (sum (map (fun c : list string => len c) (values rc))) rc)
    as V2.
  rewrite E2 in H, V2. cbn [bind] in H.
  injection H as <-. cbv zeta. cbn [collaboration_edges network_stats
    NetworkStats.total_collaborations NetworkStats.cross_repo_contributors
    NetworkStats.avg_collaborators_per_user
    NetworkStats.avg_contributors_per_repo].
  split; [reflexivity|]. split; [|split].
  - intros Hnd. unfold hub_list. cbn [cross_repo_list].
    rewrite hub_fold by (auto; intros u _ []). cbn [app].
    destruct (map _ (filter _ _)) as [|x l] eqn:E.
    + split; [reflexivity|]. split; reflexivity.
    + split.
      * rewrite (len_perm (sort_desc_perm _ _)). unfold values.
        now rewrite len_map.
      * split; [discriminate|]. intros Hs.
        apply (f_equal (@length _)) in Hs.
        rewrite (Permutation_length (sort_desc_perm _ _)) in Hs. discriminate.
  - intros Hne. specialize (V1 Hne). now injection V1.
  - intros Hne. specialize (V2 Hne). now injection V2.
Qed.

(** The sets of [user_collaborations] have no member twice. *)
Lemma link_sets (repo : repo_id) (g : graph) (u1 u2 : string) :
  (forall a, NoDup (collaborators_at a g)) ->
  forall a, NoDup (collaborators_at a (link repo g u1 u2)).
Proof.
  intros Hg a. unfold link, collaborators_at in *.
  destruct (eq_dec u1 u2); [apply Hg|]. simpl.
  destruct (eq_dec a u2) as [->|Ha2].
  - rewrite dd_get_update_same. apply set_add_NoDup.
    destruct (eq_dec u2 u1) as [->|H21].
    + rewrite dd_get_update_same. apply set_add_NoDup, Hg.
    + rewrite dd_get_update_other by exact H21. apply Hg.
  - rewrite dd_get_update_other by exact Ha2.
    destruct (eq_dec a u1) as [->|Ha1].
    + rewrite dd_get_update_same. apply set_add_NoDup, Hg.
    + rewrite dd_get_update_other by exact Ha1. apply Hg.
Qed.

Lemma build_graph_sets (rc : index) (a : string) :
  NoDup (collaborators_at a (build_graph rc)).
Proof.
  revert a. unfold build_graph.
  assert (H0 : forall a, NoDup (collaborators_at a empty_graph))
    by (intros a; constructor).
  revert H0. generalize empty_graph.
  induction rc as [|[r s] rc IH]; intros g Hg; simpl; [exact Hg|].
  apply IH. rewrite link_all_pairs. clear IH.
  revert g Hg. induction (pairs_of s) as [|p ps IHp]; intros g Hg; simpl;
    [exact Hg|].
  apply IHp. unfold link_pair. now apply link_sets.
Qed.

(** The repositories of an edge key, exactly. *)
Lemma link_repos_eq (repo : repo_id) (g : graph) (u1 u2 : string)
  (k : edge_key) :
  u1 <> u2 ->
  repos_at k (link repo g u1 u2) =
  repos_at k g ++ (if eq_dec k (canonical u1 u2) then [repo] else []).
Proof.
  intros Hne. unfold link, repos_at. destruct (eq_dec u1 u2); [contradiction|].
  simpl. destruct (eq_dec k (canonical u1 u2)) as [->|Hk].
  - now rewrite dd_get_update_same.
  - rewrite dd_get_update_other by exact Hk. now rewrite app_nil_r.
Qed.

Lemma fold_link_repos_eq (repo : repo_id) (ps : list (string * string))
  (g : graph) (k : edge_key) :
  NoDup (map canonical_pair ps) -> (forall p, In p ps -> fst p <> snd p) ->
  repos_at k (fold_left (link_pair repo) ps g) =
  repos_at k g ++ (if mem k (map canonical_pair ps) then [repo] else []).
Proof.
  revert g. induction ps as [|p ps IH]; intros g Hnd Hne; simpl.
  - unfold mem. simpl. now rewrite app_nil_r.
  - inversion Hnd as [|? ? Hp Hnd']; subst.
    rewrite IH by (auto; intros q Hq; apply Hne; now right).
    unfold link_pair. rewrite link_repos_eq by (apply Hne; now left).
    fold (canonical_pair p). rewrite <- app_assoc. f_equal.
    rewrite mem_cons. destruct (eq_dec k (canonical_pair p)) as [->|Hk].
    + assert (E : mem (canonical_pair p) (map canonical_pair ps) = false)
        by (apply mem_iff; split; [contradiction|discriminate]).
      now rewrite E.
    + reflexivity.
Qed.

Lemma index_wf_snoc (rc : index) (r : repo_id) (s : pyset) :
  index_wf (rc ++ [(r, s)]) -> index_wf rc /\ NoDup s /\ ~ In r (keys rc).
Proof.
  unfold index_wf, keys. rewrite map_app, Forall_app. simpl.
  intros (Hk & Hrc & Hs). inversion Hs as [|? ? Hs' _]; subst. simpl in Hs'.
  repeat split; auto.
  - now apply NoDup_app_remove_r in Hk.
  - apply NoDup_remove_2 in Hk. rewrite app_nil_r in Hk. exact Hk.
Qed.

Lemma build_graph_repos (rc : index) (k : edge_key) :
  index_wf rc -> String.ltb (fst k) (snd k) = true ->
  repos_at k (build_graph rc) = shared k rc.
Proof.
  intros Hwf Hlt. induction rc as [|[r s] rc IH] using rev_ind; [reflexivity|].
  apply index_wf_snoc in Hwf. destruct Hwf as (Hwf & Hs & _).
  rewrite build_graph_snoc, link_all_pairs, fold_link_repos_eq.
  - rewrite (IH Hwf). unfold shared. rewrite filter_app, map_app. f_equal.
    simpl. rewrite (@mem_iff _ _ k _ (mem (fst k) s && mem (snd k) s)).
    + now destruct (mem (fst k) s && mem (snd k) s).
    + rewrite andb_true_iff, !mem_In, in_map_iff. split.
      * intros (p & Hp & Hin).
        assert (Hk : exists p, In p (pairs_of s) /\ fst p <> snd p /\
                               canonical_pair p = k).
        { exists p. repeat split; auto. destruct p as [a b].
          exact (pairs_of_neq Hs Hin). }
        apply pairs_of_key in Hk. tauto.
      * intros Hab.
        assert (Hk : exists p, In p (pairs_of s) /\ fst p <> snd p /\
                               canonical_pair p = k)
          by (apply pairs_of_key; tauto).
        destruct Hk as (p & Hin & _ & Hp). eauto.
  - now apply canonical_pairs_NoDup.
  - intros [a b] Hin. exact (pairs_of_neq Hs Hin).
Qed.

End StatsFacts.

(** ** Counting the pairs of collaborators *)

Lemma NoDup_map_inj {A B : Type} (f : A -> B) (l : list A) :
  (forall x y, f x = f y -> x = y) -> NoDup l -> NoDup (map f l).
Proof.
  intros Hf. induction 1 as [|x l Hx _ IH]; simpl; constructor; auto.
  rewrite in_map_iff. intros (y & Hy & Hin). apply Hf in Hy. congruence.
Qed.

Lemma NoDup_flat_pairs {K V : Type} (d : list (K * list V)) :
  NoDup (map fst d) -> Forall (fun entry => NoDup (snd entry)) d ->
  NoDup (flat_map (fun entry => map (pair (fst entry)) (snd entry)) d).
Proof.
  induction d as [|[k v] d IH]; simpl; intros Hk Hv; [constructor|].
  inversion Hk as [|? ? Hn Hk']; subst. inversion Hv as [|? ? Hv0 Hv']; subst.
  simpl in Hv0. apply NoDup_app; repeat split.
  - apply NoDup_map_inj; [|exact Hv0]. intros x y [= E]. exact E.
  - now apply IH.
  - intros [a b] H1 H2. apply in_map_iff in H1. destruct H1 as (x & [= <- <-] & _).
    apply in_flat_map in H2. destruct H2 as ([k' v'] & Hin & Hx). simpl in Hx.
    apply in_map_iff in Hx. destruct Hx as (y & [= <- <-] & _).
    apply Hn. apply (in_map fst) in Hin. exact Hin.
Qed.

Lemma In_flat_pairs {K V : Type} (d : list (K * list V)) (a : K) (b : V) :
  In (a, b) (flat_map (fun entry => map (pair (fst entry)) (snd entry)) d) <->
  exists v, In (a, v) d /\ In b v.
Proof.
  rewrite in_flat_map. split.
  - intros ([k v] & Hin & Hx). simpl in Hx. apply in_map_iff in Hx.
    destruct Hx as (y & [= <- <-] & Hy). eauto.
  - intros (v & Hin & Hb). exists (a, v). split; [exact Hin|].
    simpl. now apply in_map.
Qed.

Lemma two_members {A : Type} (a b : A) (l : list A) :
  a <> b -> In a l -> In b l -> 2 <= len l.
Proof.
  intros Hne Ha Hb. destruct l as [|x [|y l]]; simpl in *.
  - contradiction.
  - intuition congruence.
  - unfold len. simpl. lia.
Qed.

Lemma filter_len_le {A : Type} (f : A -> bool) (l : list A) :
  len (filter f l) <= len l.
Proof.
  unfold len. induction l as [|x l IH]; simpl; [lia|].
  destruct (f x); simpl; lia.
Qed.

Lemma dd_update_total {K V : Type} `{EqDec K} (x : V) (k : K)
  (d : dict K (list V)) :
  sum (map (fun c : list V => len c)
         (values (dd_update [] (fun l => l ++ [x]) k d))) =
  sum (map (fun c : list V => len c) (values d)) + 1.
Proof.
  unfold values. induction d as [|[k0 v] d IH]; simpl.
  - rewrite !sum_cons. reflexivity.
  - destruct (eq_dec k k0); simpl; rewrite !sum_cons.
    + rewrite len_app, len_cons. unfold len at 2. simpl. lia.
    + rewrite IH. lia.
Qed.

Section CountFacts.
Context {PS : PySet}.

Lemma collaborators_entry (rc : index) (a : string) (s : pyset) :
  In (a, s) (user_collaborations (build_graph rc)) ->
  s = collaborators_at a (build_graph rc).
Proof.
  intros Hin. destruct (build_graph_spec rc) as ((_ & Hu & _) & _).
  unfold collaborators_at. now rewrite (dd_get_In [] _ _ _ Hu Hin).
Qed.

(** The ordered pairs of collaborators are the edge keys and their
    mirror images. *)
Lemma degree_pairs (rc : index) :
  let g := build_graph rc in
  Permutation
    (flat_map (fun entry => map (pair (fst entry)) (snd entry))
       (user_collaborations g))
    (keys (collaboration_repos g) ++ map swap_pair (keys (collaboration_repos g))).
Proof.
  intros g. destruct (build_graph_spec rc) as ((Hc & Hu & _) & Hrep & Hcol).
  fold g in Hc, Hu, Hrep, Hcol.
  assert (Hkey : forall a b, In (a, b) (keys (collaboration_repos g)) <->
            String.ltb a b = true /\ exists r, together rc a b r).
  { intros a b. split.
    - intros Hk. apply edge_key_lt in Hk. exact Hk.
    - intros (Hlt & r & Ht). now apply edge_key_present with r. }
  apply NoDup_Permutation.
  - apply NoDup_flat_pairs; [exact Hu|]. apply Forall_forall.
    intros [a s] Hin. simpl. rewrite (collaborators_entry _ _ _ Hin).
    apply build_graph_sets.
  - apply NoDup_app; repeat split.
    + exact Hc.
    + apply NoDup_map_inj; [|exact Hc].
      intros [a b] [c d] [= -> ->]. reflexivity.
    + intros [a b] H1 H2. apply in_map_iff in H2.
      destruct H2 as ([c d] & [= <- <-] & H2).
      apply Hkey in H1. apply Hkey in H2.
      destruct H1 as [H1 _]. destruct H2 as [H2 _].
      apply ltb_asym in H1. congruence.
  - intros [a b]. rewrite In_flat_pairs, in_app_iff, in_map_iff. split.
    + intros (s & Hin & Hb). rewrite (collaborators_entry _ _ _ Hin) in Hb.
      apply Hcol in Hb. destruct Hb as (Hne & r & Ht).
      destruct (ltb_total Hne) as [Hlt|Hlt].
      * left. apply Hkey. eauto.
      * right. exists (b, a). split; [reflexivity|]. apply Hkey.
        split; [exact Hlt|]. exists r. now apply together_sym.
    + intros [Hk|([c d] & [= <- <-] & Hk)]; apply Hkey in Hk;
        destruct Hk as (Hlt & r & Ht).
      * exists (collaborators_at a g). split.
        -- apply dd_get_entry. eapply dd_get_key. apply Hcol.
           split; [exact (ltb_neq Hlt)|eauto].
        -- apply Hcol. split; [exact (ltb_neq Hlt)|eauto].
      * assert (Hd : In c (collaborators_at d g)).
        { apply Hcol. split.
          - intros ->. rewrite ltb_irrefl in Hlt. discriminate.
          - exists r. now apply together_sym. }
        exists (collaborators_at d g). split; [|exact Hd].
        apply dd_get_entry. eapply dd_get_key. exact Hd.
Qed.

Lemma degree_sum (rc : index) :
  let g := build_graph rc in
  sum (map (fun c : list string => len c) (values (user_collaborations g))) =
  2 * len (collaboration_repos g).
Proof.
  intros g. unfold values.
  etransitivity;
    [exact (@sum_lens_flat string string (user_collaborations g))|].
  etransitivity; [exact (len_perm (degree_pairs rc))|]. fold g.
  rewrite len_app, len_map. unfold keys. rewrite len_map. lia.
Qed.

(** A login with a collaborator has at least one and at most all the
    others. *)
Lemma degree_bounds (rc : index) (a : string) :
  let g := build_graph rc in
  In a (keys (user_collaborations g)) ->
  1 <= len (collaborators_at a g) <= len (user_collaborations g) - 1.
Proof.
  intros g Ha.
  destruct (build_graph_spec rc) as ((_ & Hu & _ & Hne) & _ & Hcol).
  fold g in Hu, Hne, Hcol. split.
  - specialize (Hne a Ha). pose proof (len_nonneg (collaborators_at a g)).
    assert (len (collaborators_at a g) <> 0) by (rewrite len_zero; exact Hne).
    lia.
  - assert (Hle : len (a :: collaborators_at a g) <=
                  len (keys (user_collaborations g))).
    { apply len_incl.
      - constructor; [|apply build_graph_sets].
        intros Hin. apply Hcol in Hin. tauto.
      - intros b [<-|Hb]; [exact Ha|].
        apply Hcol in Hb. destruct Hb as (Hab & r & Ht).
        assert (Hba : In a (collaborators_at b g)).
        { apply Hcol. split; [congruence|]. exists r. now apply together_sym. }
        eapply dd_get_key. exact Hba. }
    unfold keys in Hle. rewrite len_map in Hle.
    rewrite len_cons in Hle. lia.
Qed.

(** Each [append] of line 65 adds one to the total of the weights. *)
Lemma link_total (repo : repo_id) (g : graph) (u1 u2 : string) :
  u1 <> u2 ->
  sum (map (fun c : list repo_id => len c)
         (values (collaboration_repos (link repo g u1 u2)))) =
  sum (map (fun c : list repo_id => len c) (values (collaboration_repos g))) + 1.
Proof.
  intros Hne. unfold link. destruct (eq_dec u1 u2); [contradiction|].
  cbn [collaboration_repos]. apply dd_update_total.
Qed.

Lemma fold_link_total (repo : repo_id) (ps : list (string * string)) (g : graph) :
  (forall p, In p ps -> fst p <> snd p) ->
  sum (map (fun c : list repo_id => len c)
         (values (collaboration_repos (fold_left (link_pair repo) ps g)))) =
  sum (map (fun c : list repo_id => len c) (values (collaboration_repos g))) +
  len ps.
Proof.
  revert g. induction ps as [|p ps IH]; intros g Hne; simpl.
  - unfold len. simpl. lia.
  - rewrite IH by (intros q Hq; apply Hne; now right).
    unfold link_pair. rewrite link_total by (apply Hne; now left).
    rewrite len_cons. lia.
Qed.

Lemma build_graph_total (rc : index) :
  Forall (fun entry => NoDup (snd entry)) rc ->
  sum (map (fun c : list repo_id => len c)
         (values (collaboration_repos (build_graph rc)))) =
  sum (map (fun entry => len (pairs_of (snd entry))) rc).
Proof.
  intros Hs. induction rc as [|[r s] rc IH] using rev_ind; [reflexivity|].
  apply Forall_app in Hs. destruct Hs as [Hrc Hs].
  inversion Hs as [|? ? Hs0 _]; subst. simpl in Hs0.
  rewrite build_graph_snoc, link_all_pairs, fold_link_total.
  - rewrite (IH Hrc), map_app, sum_app. cbn [map snd]. rewrite sum_cons.
    change (sum []) with 0. now rewrite Z.add_0_r.
  - intros [a b] Hin. exact (pairs_of_neq Hs0 Hin).
Qed.

End CountFacts.

(** ** The published lists and the summary *)

Section MetricsExtras.
Context {PS : PySet}.

Lemma repos_contributed_In (rc : index) (user : string) (r : repo_id) :
  In r (repos_contributed rc user) <-> exists s, In (r, s) rc /\ In user s.
Proof.
  unfold repos_contributed. rewrite in_map_iff. split.
  - intros ([r' s] & <- & Hin). apply filter_In in Hin.
    destruct Hin as [Hin Hm]. apply mem_In in Hm. eauto.
  - intros (s & Hin & Hu). exists (r, s). split; [reflexivity|].
    apply filter_In. split; [exact Hin|]. now apply mem_In.
Qed.

Lemma contributed_len (rc : index) (out : output) (login : string) :
  analyse rc = Ok out ->
  len (contributed out login) = len (repos_contributed rc login).
Proof.
  intros Hout. rewrite <- (len_perm (@contributed_repos _ rc out login Hout)).
  now rewrite len_map.
Qed.

(** X5. The repository profiles: the repositories of the index with
    their contributors, one profile each, in decreasing number of
    contributors; each lists its contributors once, has at least one, and
    counts the pairs among them as potential collaborations. *)
Theorem repo_profiles (issues prs commits events : list json) (out : output) :
  process_collaboration_networks issues prs commits events = Ok out ->
  exists rc,
    collect_contributors issues prs commits events = Ok rc /\
    Permutation
      (map (fun ra => (RepoAnalysis.repo ra, RepoAnalysis.contributors ra))
         (repo_analysis out)) rc /\
    NoDup (map RepoAnalysis.repo (repo_analysis out)) /\
    sorted_desc RepoAnalysis.contributor_count (repo_analysis out) /\
    forall ra, In ra (repo_analysis out) ->
      NoDup (RepoAnalysis.contributors ra) /\
      RepoAnalysis.contributor_count ra = len (RepoAnalysis.contributors ra) /\
      1 <= RepoAnalysis.contributor_count ra /\
      RepoAnalysis.potential_collaborations ra =
        len (pairs_of (RepoAnalysis.contributors ra)).
Proof.
  intros Hrun. destruct (process_inv _ _ _ _ Hrun) as (rc & Hrc & Hwf & Hout).
  pose proof (collect_full _ _ _ _ Hrc) as Hfull.
  destruct (analyse_inv _ Hout) as (_ & _ & Hra & _).
  exists rc. split; [exact Hrc|]. split; [|split; [|split]].
  - rewrite Hra.
    etransitivity; [apply Permutation_map, sort_desc_perm|].
    rewrite map_map. erewrite map_ext; [rewrite map_id; reflexivity|].
    intros [r s]. reflexivity.
  - rewrite Hra.
    apply (Permutation_NoDup
             (Permutation_sym (Permutation_map RepoAnalysis.repo
                                 (sort_desc_perm _ _)))).
    rewrite map_map. simpl. exact (proj1 Hwf).
  - rewrite Hra. apply sort_desc_sorted.
  - intros ra Hin. apply (profile_In rc _ Hout) in Hin.
    destruct Hin as ([r s] & Hin & ->). unfold profile_of. simpl.
    destruct Hwf as [_ Hsets]. rewrite Forall_forall in Hsets.
    unfold index_full in Hfull. rewrite Forall_forall in Hfull.
    specialize (Hsets _ Hin). specialize (Hfull _ Hin). simpl in *.
    repeat split; auto.
    + pose proof (len_nonneg s). assert (len s <> 0) by now rewrite len_zero.
      lia.
    + apply potential_is_pairs.
Qed.

(** X6. The user metrics: a login has an entry exactly when it shares a
    repository of the index with another login, and it has one entry only;
    the entries are in decreasing number of collaborators.  The
    collaborators of an entry are the other logins that share a repository
    with its login, each listed once; there are at least one and at most
    all the other users; [repositories_contributed] is the number of
    repositories of the index that have the login, which is the number of
    profiles that list it, at least one. *)
Theorem user_metrics_ok (issues prs commits events : list json) (out : output) :
  process_collaboration_networks issues prs commits events = Ok out ->
  exists rc,
    collect_contributors issues prs commits events = Ok rc /\
    (forall a,
       (exists m, In m (user_metrics out) /\ UserMetric.user m = a) <->
       exists b r, a <> b /\ together rc a b r) /\
    NoDup (map UserMetric.user (user_metrics out)) /\
    sorted_desc UserMetric.collaborator_count (user_metrics out) /\
    forall m, In m (user_metrics out) ->
      (forall b,
         In b (UserMetric.collaborators m) <->
         UserMetric.user m <> b /\
         exists r, together rc (UserMetric.user m) b r) /\
      NoDup (UserMetric.collaborators m) /\
      ~ In (UserMetric.user m) (UserMetric.collaborators m) /\
      UserMetric.collaborator_count m = len (UserMetric.collaborators m) /\
      1 <= UserMetric.collaborator_count m <=
        NetworkStats.total_users (network_stats out) - 1 /\
      UserMetric.repositories_contributed m =
        len (repos_contributed rc (UserMetric.user m)) /\
      UserMetric.repositories_contributed m =
        len (contributed out (UserMetric.user m)) /\
      1 <= UserMetric.repositories_contributed m.
Proof.
  intros Hrun. destruct (process_inv _ _ _ _ Hrun) as (rc & Hrc & Hwf & Hout).
  destruct (analyse_inv _ Hout) as (_ & Hm & _ & _ & Hu & _).
  destruct (build_graph_spec rc) as ((_ & Hnd & _ & Hne) & _ & Hcol).
  exists rc. split; [exact Hrc|]. split; [|split; [|split]].
  - intros a. split.
    + intros (m & Hin & <-). rewrite Hm in Hin.
      apply sort_desc_In, in_map_iff in Hin.
      destruct Hin as ([a s] & <- & Hin). simpl.
      assert (Ha : In a (keys (user_collaborations (build_graph rc))))
        by (apply (in_map fst) in Hin; exact Hin).
      specialize (Hne a Ha).
      destruct (collaborators_at a (build_graph rc)) as [|b l] eqn:E;
        [congruence|].
      assert (Hb : In b (collaborators_at a (build_graph rc)))
        by (rewrite E; now left).
      apply Hcol in Hb. destruct Hb as (Hab & r & Ht). eauto.
    + intros (b & r & Hab & Ht).
      assert (Hc : collaborates out a b)
        by (apply (collaborates_together rc a b Hout); eauto).
      destruct Hc as (m & Hin & Hu' & _). eauto.
  - rewrite Hm.
    apply (Permutation_NoDup
             (Permutation_sym (Permutation_map UserMetric.user
                                 (sort_desc_perm _ _)))).
    rewrite map_map.
    erewrite map_ext; [exact Hnd|]. intros [a s]. reflexivity.
  - rewrite Hm. apply sort_desc_sorted.
  - intros m Hin. rewrite Hm in Hin. apply sort_desc_In, in_map_iff in Hin.
    destruct Hin as ([a s] & <- & Hin). simpl.
    assert (Ha : In a (keys (user_collaborations (build_graph rc))))
      by (apply (in_map fst) in Hin; exact Hin).
    rewrite (collaborators_entry _ _ _ Hin) in *.
    pose proof (degree_bounds rc a Ha) as Hb. cbv zeta in Hb.
    rewrite Hu, (@contributed_len rc out a Hout).
    split; [intros b; apply Hcol|].
    repeat split; try tauto.
    + apply build_graph_sets.
    + intros Hself. apply Hcol in Hself. tauto.
    + specialize (Hne a Ha).
      destruct (collaborators_at a (build_graph rc)) as [|b l] eqn:E;
        [congruence|].
      assert (Hb' : In b (collaborators_at a (build_graph rc)))
        by (rewrite E; now left).
      apply Hcol in Hb'. destruct Hb' as (_ & r & s' & Hrs & Has & _).
      assert (Hr : In r (repos_contributed rc a))
        by (apply repos_contributed_In; eauto).
      destruct (repos_contributed rc a) as [|x rest]; [destruct Hr|].
      rewrite len_cons. pose proof (len_nonneg rest). lia.
Qed.

(** X7. The collaborator counts add up to twice the number of edges. *)
Theorem degrees_count_edges_twice (issues prs commits events : list json)
  (out : output) :
  process_collaboration_networks issues prs commits events = Ok out ->
  total_degree out =
  2 * NetworkStats.total_collaborations (network_stats out).
Proof.
  intros Hrun. destruct (process_inv _ _ _ _ Hrun) as (rc & _ & _ & Hout).
  destruct (analyse_inv _ Hout) as (He & Hm & _).
  destruct (analyse_stats _ Hout) as (Ht & _).
  rewrite Ht, He, (len_perm (sort_desc_perm _ _)), len_map.
  rewrite <- degree_sum. unfold total_degree. rewrite Hm.
  rewrite (sum_perm (Permutation_map _ (sort_desc_perm _ _))).
  unfold values. rewrite !map_map. f_equal. apply map_ext.
  intros [a s]. reflexivity.
Qed.

(** X8. The counts of the summary are the lengths of the published
    lists; the hub list is saved exactly when the count of hubs is not 0,
    and there are no more hubs than users. *)
Theorem summary_counts (issues prs commits events : list json) (out : output) :
  process_collaboration_networks issues prs commits events = Ok out ->
  let stats := network_stats out in
  NetworkStats.total_users stats = len (user_metrics out) /\
  NetworkStats.total_collaborations stats = len (collaboration_edges out) /\
  NetworkStats.total_repositories stats = len (repo_analysis out) /\
  NetworkStats.cross_repo_contributors stats = len (hub_list out) /\
  (cross_repo_list out = None <->
   NetworkStats.cross_repo_contributors stats = 0) /\
  NetworkStats.cross_repo_contributors stats <= NetworkStats.total_users stats.
Proof.
  intros Hrun stats. unfold stats.
  destruct (process_inv _ _ _ _ Hrun) as (rc & _ & _ & Hout).
  destruct (analyse_inv _ Hout) as (_ & Hm & Hra & Hh & Hu & Hr & _).
  destruct (build_graph_spec rc) as ((_ & Hnd & _) & _).
  destruct (analyse_stats _ Hout) as (Ht & Hx & _).
  destruct (Hx Hnd) as (Hcount & Hnone). specialize (Hh Hnd).
  repeat split.
  - rewrite Hu, Hm, (len_perm (sort_desc_perm _ _)), len_map. reflexivity.
  - exact Ht.
  - rewrite Hr, Hra, (len_perm (sort_desc_perm _ _)), len_map. reflexivity.
  - exact Hcount.
  - rewrite Hcount, len_zero. apply Hnone.
  - rewrite Hcount, len_zero. apply Hnone.
  - rewrite Hcount, Hu, Hh, (len_perm (sort_desc_perm _ _)), len_map.
    etransitivity; [apply filter_len_le|]. unfold keys. rewrite len_map. lia.
Qed.

(** X10. The repositories of an edge are those that list both its
    logins, in the order of the index and each once; the weight is at
    least 1 and at most the number of repositories, and the type is always
    same_repository. *)
Theorem edge_repositories (issues prs commits events : list json)
  (out : output) :
  process_collaboration_networks issues prs commits events = Ok out ->
  exists rc,
    collect_contributors issues prs commits events = Ok rc /\
    forall e, In e (collaboration_edges out) ->
      Edge.repos e = shared (edge_pair e) rc /\
      NoDup (Edge.repos e) /\
      1 <= Edge.weight e <=
        NetworkStats.total_repositories (network_stats out) /\
      Edge.collaboration_type e = "same_repository".
Proof.
  intros Hrun. destruct (process_inv _ _ _ _ Hrun) as (rc & Hrc & Hwf & Hout).
  exists rc. split; [exact Hrc|]. intros e He.
  destruct (analyse_inv _ Hout) as (_ & _ & _ & _ & _ & Hr & _).
  destruct (build_graph_spec rc) as ((_ & _ & Hne & _) & _).
  apply (edge_In rc _ Hout) in He. destruct He as ([a b] & Hk & ->).
  pose proof (edge_key_lt _ _ Hk) as (Hlt & _).
  specialize (Hne _ Hk). unfold edge_pair. simpl.
  rewrite (build_graph_repos (a, b) Hwf Hlt) in *.
  assert (Hnd : NoDup (shared (a, b) rc))
    by (apply NoDup_map_filter; exact (proj1 Hwf)).
  repeat split; auto.
  - pose proof (len_nonneg (shared (a, b) rc)).
    assert (len (shared (a, b) rc) <> 0) by now rewrite len_zero. lia.
  - rewrite Hr. unfold shared. rewrite len_map. apply filter_len_le.
Qed.

(** X11. The weights of the edges add up to the potential collaborations
    of the repositories: each pair of contributors of a repository counts
    once in the weight of its edge. *)
Theorem weights_count_pairs (issues prs commits events : list json)
  (out : output) :
  process_collaboration_networks issues prs commits events = Ok out ->
  total_weight out = total_potential out.
Proof.
  intros Hrun. destruct (process_inv _ _ _ _ Hrun) as (rc & _ & Hwf & Hout).
  destruct (analyse_inv _ Hout) as (He & _ & Hra & _).
  unfold total_weight, total_potential. rewrite Hra, He.
  rewrite (sum_perm (Permutation_map _ (sort_desc_perm _ _))).
  rewrite (sum_perm (Permutation_map RepoAnalysis.potential_collaborations
                       (sort_desc_perm _ _))).
  rewrite !map_map.
  transitivity (sum (map (fun entry : repo_id * pyset =>
                            len (pairs_of (snd entry))) rc)).
  - etransitivity; [|exact (build_graph_total (proj2 Hwf))]. unfold values.
    rewrite map_map. f_equal. apply map_ext. intros [[a b] v]. reflexivity.
  - f_equal. apply map_ext. intros [r s]. unfold profile_of. simpl.
    symmetry. apply potential_is_pairs.
Qed.

(** X12. No edge is published exactly when no repository of the index
    has two contributors, which the profiles show as well; then no user
    metric is published either, and no hub list is saved. *)
Theorem no_edges_iff (issues prs commits events : list json) (out : output) :
  process_collaboration_networks issues prs commits events = Ok out ->
  exists rc,
    collect_contributors issues prs commits events = Ok rc /\
    (collaboration_edges out = [] <->
     forall r s, In (r, s) rc -> len s <= 1) /\
    (collaboration_edges out = [] <->
     forall ra, In ra (repo_analysis out) ->
       RepoAnalysis.contributor_count ra <= 1) /\
    (collaboration_edges out = [] <-> user_metrics out = []) /\
    (collaboration_edges out = [] -> cross_repo_list out = None).
Proof.
  intros Hrun. destruct (process_inv _ _ _ _ Hrun) as (rc & Hrc & Hwf & Hout).
  destruct (analyse_inv _ Hout) as (_ & Hm & _ & Hh & _).
  destruct (build_graph_spec rc) as ((_ & Hnd & _) & _).
  destruct (analyse_stats _ Hout) as (_ & Hx & _).
  destruct (Hx Hnd) as (_ & Hnone). specialize (Hh Hnd).
  assert (Hedge : collaboration_edges out = [] <->
                  forall a b, ~ joined out a b).
  { split.
    - intros E a b (e & He & _). rewrite E in He. exact He.
    - intros Hno. destruct (collaboration_edges out) as [|e l] eqn:E;
        [reflexivity|]. exfalso.
      apply (Hno (Edge.source e) (Edge.target e)). exists e.
      rewrite E. split; [now left|]. left. auto. }
  assert (Hkeys : collaboration_edges out = [] <->
                  user_collaborations (build_graph rc) = []).
  { rewrite Hedge. split.
    - intros Hno.
      destruct (user_collaborations (build_graph rc)) as [|[a s] uc] eqn:E;
        [reflexivity|]. exfalso.
      assert (Ha : In a (keys (user_collaborations (build_graph rc))))
        by (rewrite E; now left).
      apply (@key_joined _ rc out a Hout) in Ha. destruct Ha as (b & Hj).
      exact (Hno a b Hj).
    - intros E a b Hj.
      assert (Ha : In a (keys (user_collaborations (build_graph rc))))
        by (apply (@key_joined _ rc out a Hout); eauto).
      rewrite E in Ha. exact Ha. }
  assert (Hindex : collaboration_edges out = [] <->
                   forall r s, In (r, s) rc -> len s <= 1).
  { rewrite Hedge. split.
    - intros Hno r s Hin.
      destruct Hwf as [_ Hsets]. rewrite Forall_forall in Hsets.
      specialize (Hsets _ Hin). simpl in Hsets.
      destruct s as [|a [|b s]].
      + unfold len. simpl. lia.
      + unfold len. simpl. lia.
      + exfalso. apply (Hno a b). apply (joined_together rc a b Hout).
        split.
        * intros ->. inversion Hsets as [|? ? Hn _]. apply Hn. now left.
        * exists r, (a :: b :: s). simpl. auto.
    - intros Hsmall a b Hj. apply (joined_together rc a b Hout) in Hj.
      destruct Hj as (Hne & r & s & Hin & Ha & Hb).
      pose proof (@two_members _ a b s Hne Ha Hb) as H2.
      specialize (Hsmall r s Hin). lia. }
  exists rc. split; [exact Hrc|]. split; [exact Hindex|].
  split; [|split].
  - rewrite Hindex. split.
    + intros Hsmall ra Hin. apply (profile_In rc _ Hout) in Hin.
      destruct Hin as ([r s] & Hin & ->). unfold profile_of. simpl.
      exact (Hsmall r s Hin).
    + intros Hsmall r s Hin.
      assert (Hp : In (profile_of (collaboration_edges out) (r, s))
                     (repo_analysis out))
        by (apply (profile_In rc _ Hout); eauto).
      apply Hsmall in Hp. exact Hp.
  - rewrite Hkeys, Hm. split.
    + intros ->. reflexivity.
    + intros E. apply (f_equal (@length _)) in E.
      rewrite (Permutation_length (sort_desc_perm _ _)), length_map in E.
      now destruct (user_collaborations (build_graph rc)).
  - intros E. apply Hnone. rewrite Hh. apply Hkeys in E. rewrite E.
    reflexivity.
Qed.

(** X13. A hub lists its repositories once, at least two of them and at
    most all, and has at least one collaborator and at most all the other
    users. *)
Theorem hub_bounds (issues prs commits events : list json) (out : output) :
  process_collaboration_networks issues prs commits events = Ok out ->
  forall h, In h (hub_list out) ->
    NoDup (Hub.repositories h) /\
    2 <= Hub.repo_count h <=
      NetworkStats.total_repositories (network_stats out) /\
    1 <= Hub.total_collaborators h <=
      NetworkStats.total_users (network_stats out) - 1.
Proof.
  intros Hrun h Hin.
  destruct (process_inv _ _ _ _ Hrun) as (rc & _ & Hwf & Hout).
  destruct (analyse_inv _ Hout) as (_ & _ & _ & _ & Hu & Hr & _).
  apply (@hub_In _ rc out h Hout) in Hin.
  destruct Hin as (u & Hk & Hmany & ->). simpl. rewrite Hu, Hr.
  split; [|split].
  - unfold repos_contributed. apply NoDup_map_filter. exact (proj1 Hwf).
  - unfold in_many_repos in Hmany. rewrite Z.gtb_ltb in Hmany.
    apply Z.ltb_lt in Hmany. split; [lia|].
    unfold repos_contributed. rewrite len_map. apply filter_len_le.
  - apply (degree_bounds rc u Hk).
Qed.

End MetricsExtras.

(** ** The properties on the sample run *)

Lemma repo_profiles_witness :
  exists out,
    process_collaboration_networks (PS := insertion_order)
      hub_issues hub_prs [] hub_events = Ok out /\
    exists rc,
      collect_contributors (PS := insertion_order)
        hub_issues hub_prs [] hub_events = Ok rc /\
      Permutation
        (map (fun ra => (RepoAnalysis.repo ra, RepoAnalysis.contributors ra))
           (repo_analysis out)) rc /\
      NoDup (map RepoAnalysis.repo (repo_analysis out)) /\
      sorted_desc RepoAnalysis.contributor_count (repo_analysis out) /\
      forall ra, In ra (repo_analysis out) ->
        NoDup (RepoAnalysis.contributors ra) /\
        RepoAnalysis.contributor_count ra = len (RepoAnalysis.contributors ra) /\
        1 <= RepoAnalysis.contributor_count ra /\
        RepoAnalysis.potential_collaborations ra =
          len (pairs_of (RepoAnalysis.contributors ra)).
Proof.
  eexists. split; [vm_compute; reflexivity|].
  apply (repo_profiles (PS := insertion_order) hub_issues hub_prs [] hub_events).
  vm_compute. reflexivity.
Defined.

Lemma user_metrics_ok_witness :
  exists out,
    process_collaboration_networks (PS := insertion_order)
      hub_issues hub_prs [] hub_events = Ok out /\
    exists rc,
      collect_contributors (PS := insertion_order)
        hub_issues hub_prs [] hub_events = Ok rc /\
      (forall a,
         (exists m, In m (user_metrics out) /\ UserMetric.user m = a) <->
         exists b r, a <> b /\ together rc a b r) /\
      NoDup (map UserMetric.user (user_metrics out)) /\
      sorted_desc UserMetric.collaborator_count (user_metrics out) /\
      forall m, In m (user_metrics out) ->
        (forall b,
           In b (UserMetric.collaborators m) <->
           UserMetric.user m <> b /\
           exists r, together rc (UserMetric.user m) b r) /\
        NoDup (UserMetric.collaborators m) /\
        ~ In (UserMetric.user m) (UserMetric.collaborators m) /\
        UserMetric.collaborator_count m = len (UserMetric.collaborators m) /\
        1 <= UserMetric.collaborator_count m <=
          NetworkStats.total_users (network_stats out) - 1 /\
        UserMetric.repositories_contributed m =
          len (repos_contributed rc (UserMetric.user m)) /\
        UserMetric.repositories_contributed m =
          len (contributed out (UserMetric.user m)) /\
        1 <= UserMetric.repositories_contributed m.
Proof.
  eexists. split; [vm_compute; reflexivity|].
  apply (user_metrics_ok (PS := insertion_order) hub_issues hub_prs [] hub_events).
  vm_compute. reflexivity.
Defined.

Lemma degrees_count_edges_twice_witness :
  exists out,
    process_collaboration_networks (PS := insertion_order)
      hub_issues hub_prs [] hub_events = Ok out /\
    total_degree out =
    2 * NetworkStats.total_collaborations (network_stats out).
Proof.
  eexists. split; [vm_compute; reflexivity|].
  apply (degrees_count_edges_twice (PS := insertion_order) hub_issues hub_prs [] hub_events).
  vm_compute. reflexivity.
Defined.

Lemma summary_counts_witness :
  exists out,
    process_collaboration_networks (PS := insertion_order)
      hub_issues hub_prs [] hub_events = Ok out /\
    (let stats := network_stats out in
     NetworkStats.total_users stats = len (user_metrics out) /\
     NetworkStats.total_collaborations stats = len (collaboration_edges out) /\
     NetworkStats.total_repositories stats = len (repo_analysis out) /\
     NetworkStats.cross_repo_contributors stats = len (hub_list out) /\
     (cross_repo_list out = None <->
      NetworkStats.cross_repo_contributors stats = 0) /\
     NetworkStats.cross_repo_contributors stats <=
       NetworkStats.total_users stats).
Proof.
  eexists. split; [vm_compute; reflexivity|].
  apply (summary_counts (PS := insertion_order) hub_issues hub_prs [] hub_events).
  vm_compute. reflexivity.
Defined.

Lemma edge_repositories_witness :
  exists out,
    process_collaboration_networks (PS := insertion_order)
      hub_issues hub_prs [] hub_events = Ok out /\
    (exists rc,
       collect_contributors (PS := insertion_order)
         hub_issues hub_prs [] hub_events = Ok rc /\
       forall e, In e (collaboration_edges out) ->
         Edge.repos e = shared (edge_pair e) rc /\
         NoDup (Edge.repos e) /\
         1 <= Edge.weight e <=
           NetworkStats.total_repositories (network_stats out) /\
         Edge.collaboration_type e = "same_repository").
Proof.
  eexists. split; [vm_compute; reflexivity|].
  apply (edge_repositories (PS := insertion_order) hub_issues hub_prs [] hub_events).
  vm_compute. reflexivity.
Defined.

Lemma weights_count_pairs_witness :
  exists out,
    process_collaboration_networks (PS := insertion_order)
      hub_issues hub_prs [] hub_events = Ok out /\
    total_weight out = total_potential out.
Proof.
  eexists. split; [vm_compute; reflexivity|].
  apply (weights_count_pairs (PS := insertion_order) hub_issues hub_prs [] hub_events).
  vm_compute. reflexivity.
Defined.

Lemma no_edges_iff_witness :
  exists out,
    process_collaboration_networks (PS := insertion_order)
      solo_issues [] [] [] = Ok out /\
    exists rc,
      collect_contributors (PS := insertion_order)
        solo_issues [] [] [] = Ok rc /\
      (collaboration_edges out = [] <->
       forall r s, In (r, s) rc -> len s <= 1) /\
      (collaboration_edges out = [] <->
       forall ra, In ra (repo_analysis out) ->
         RepoAnalysis.contributor_count ra <= 1) /\
      (collaboration_edges out = [] <-> user_metrics out = []) /\
      (collaboration_edges out = [] -> cross_repo_list out = None).
Proof.
  eexists. split; [vm_compute; reflexivity|].
  apply (no_edges_iff (PS := insertion_order) solo_issues [] [] []).
  vm_compute. reflexivity.
Defined.

Lemma hub_bounds_witness :
  exists out,
    process_collaboration_networks (PS := insertion_order)
      hub_issues hub_prs [] hub_events = Ok out /\
    (forall h, In h (hub_list out) ->
       NoDup (Hub.repositories h) /\
       2 <= Hub.repo_count h <=
         NetworkStats.total_repositories (network_stats out) /\
       1 <= Hub.total_collaborators h <=
         NetworkStats.total_users (network_stats out) - 1).
Proof.
  eexists. split; [vm_compute; reflexivity|].
  apply (hub_bounds (PS := insertion_order) hub_issues hub_prs [] hub_events).
  vm_compute. reflexivity.
Defined.
